(** * Shallow embedding of parts of SPFlow (spflow and the legacy spn package)

    Definitions come first, grouped by source file; the theorems follow
    in modules of their own. *)

From Stdlib Require Import String List Bool Arith Lia ZArith QArith Qabs Qminmax Reals Lra Sorted.
Import ListNotations.
#[global] Set Warnings "-register-all".
Open Scope nat_scope.

(* ================================================================== *)
(** ** spn/structure/graph/node.py : the legacy node graph *)
(* ================================================================== *)

Module LegacyGraph.

(** The four concrete classes [Node], [SumNode], [ProductNode] and
    [LeafNode]; scopes are Python lists of ints, weights Python floats
    (taken here as rationals so that [isclose] can be evaluated). *)
Inductive node : Type :=
| Node (children : list node) (scope : list Z)
| SumNode (children : list node) (scope : list Z) (weights : list Q)
| ProductNode (children : list node) (scope : list Z)
| LeafNode (scope : list Z).

Inductive cls := CNode | CSum | CProduct | CLeaf.

Definition cls_eqb (a b : cls) : bool :=
  match a, b with
  | CNode, CNode | CSum, CSum | CProduct, CProduct | CLeaf, CLeaf => true
  | _, _ => false
  end.

(** [type(self)] *)
Definition type_of (n : node) : cls :=
  match n with
  | Node _ _ => CNode
  | SumNode _ _ _ => CSum
  | ProductNode _ _ => CProduct
  | LeafNode _ => CLeaf
  end.

Definition scope_of (n : node) : list Z :=
  match n with
  | Node _ s | SumNode _ s _ | ProductNode _ s | LeafNode s => s
  end.

(** [LeafNode.__init__] passes [children=[]]. *)
Definition children_of (n : node) : list node :=
  match n with
  | Node c _ | SumNode c _ _ | ProductNode c _ => c
  | LeafNode _ => []
  end.

(** [self.scope == other.scope] on lists of ints. *)
Fixpoint list_Z_eqb (a b : list Z) : bool :=
  match a, b with
  | [], [] => true
  | x :: a', y :: b' => Z.eqb x y && list_Z_eqb a' b'
  | _, _ => false
  end.

(** [all(map(f, xs, ys))]: Python's two-argument [map] stops at the end
    of the shorter iterable. *)
Fixpoint all_map2 {A : Type} (f : A -> A -> bool) (xs ys : list A) : bool :=
  match xs, ys with
  | x :: xs', y :: ys' => f x y && all_map2 f xs' ys'
  | _, _ => true
  end.

(** [math.isclose(x, y, rel_tol=1e-5)] with the default [abs_tol=0.0]:
    [abs(x-y) <= max(rel_tol * max(abs(x), abs(y)), 0)]. *)
Definition isclose_rel (x y : Q) : bool :=
  Qle_bool (Qabs (x - y)) (Qmax ((1 # 100000) * Qmax (Qabs x) (Qabs y)) 0)%Q.

(** [Node.equals] (the base body, also reached through [super()]) and
    [SumNode.equals]; the recursive [x.equals(y)] dispatches on [x]. *)
Fixpoint equals (a b : node) {struct a} : bool :=
  let node_equals (ca : list node) :=
    cls_eqb (type_of a) (type_of b)
    && list_Z_eqb (scope_of a) (scope_of b)
    && all_map2 equals ca (children_of b) in
  match a with
  | SumNode ca _ wa =>
      match b with
      | SumNode _ _ wb =>
          node_equals ca
          && all_map2 isclose_rel wa wb
          && Nat.eqb (length wa) (length wb)
      | _ => false
      end
  | Node ca _ | ProductNode ca _ => node_equals ca
  | LeafNode _ => node_equals []
  end.

End LegacyGraph.

(** Breadth-first traversals [_print_node_graph] and [_get_node_counts].
    Node objects are identified by number; Python lists live in a heap of
    list objects addressed by reference, so that aliasing is visible. *)
Module LegacyTraversal.

Import LegacyGraph.

Record graph : Type := {
  g_cls : nat -> cls;
  g_children : nat -> list nat
}.

Record pyheap : Type := {
  cells : nat -> list nat;
  next_ref : nat
}.

(** Overwrite the contents of the list object [r] ([pop], [extend]). *)
Definition upd (h : pyheap) (r : nat) (v : list nat) : pyheap :=
  {| cells := fun r' => if Nat.eqb r' r then v else cells h r';
     next_ref := next_ref h |}.

(** Allocate a new list object holding [v] ([list(...)]). *)
Definition alloc (h : pyheap) (v : list nat) : pyheap * nat :=
  ({| cells := fun r' => if Nat.eqb r' (next_ref h) then v else cells h r';
      next_ref := S (next_ref h) |}, next_ref h).

(** [list(set(node.children) - set(nodes))]; the iteration order of a
    Python set is unspecified, here the order of [nodup]. *)
Definition set_minus (xs ys : list nat) : list nat :=
  nodup Nat.eq_dec (filter (fun x => negb (existsb (Nat.eqb x) ys)) xs).

Inductive count_outcome : Type :=
| CountRet (h : pyheap) (counts : nat * nat * nat)
| CountRaise (h : pyheap)
| CountDiverge.

(** The [while nodes:] loop of [_get_node_counts], on the list object
    [r]; [fuel] bounds the number of iterations. *)
Fixpoint count_loop (g : graph) (fuel : nat) (h : pyheap) (r : nat)
    (c : nat * nat * nat) : count_outcome :=
  match fuel with
  | 0 => CountDiverge
  | S fuel' =>
      match cells h r with
      | [] => CountRet h c
      | n :: rest =>
          let h1 := upd h r rest in
          let h2 := upd h1 r (rest ++ set_minus (g_children g n) rest) in
          let '(s, p, l) := c in
          match g_cls g n with
          | CSum => count_loop g fuel' h2 r (S s, p, l)
          | CProduct => count_loop g fuel' h2 r (s, S p, l)
          | CLeaf => count_loop g fuel' h2 r (s, p, S l)
          | CNode => CountRaise h1
          end
      end
  end.

(** [_get_node_counts(root_nodes)]: [nodes = root_nodes] binds the
    caller's list object itself. *)
Definition _get_node_counts (g : graph) (fuel : nat) (h : pyheap)
    (root_nodes : nat) : count_outcome :=
  count_loop g fuel h root_nodes (0, 0, 0).

Inductive print_outcome : Type :=
| PrintRet (h : pyheap) (printed : list nat)
| PrintDiverge.

Fixpoint print_loop (g : graph) (fuel : nat) (h : pyheap) (r : nat)
    (out : list nat) : print_outcome :=
  match fuel with
  | 0 => PrintDiverge
  | S fuel' =>
      match cells h r with
      | [] => PrintRet h out
      | n :: rest =>
          let h1 := upd h r rest in
          let h2 := upd h1 r (rest ++ set_minus (g_children g n) rest) in
          print_loop g fuel' h2 r (out ++ [n])
      end
  end.

(** [_print_node_graph(root_nodes)]: [nodes = list(root_nodes)] copies
    the caller's list into a new list object first. *)
Definition _print_node_graph (g : graph) (fuel : nat) (h : pyheap)
    (root_nodes : nat) : print_outcome :=
  let '(h1, nodes) := alloc h (cells h root_nodes) in
  print_loop g fuel h1 nodes [].

(** The nodes reachable from the nodes [ns] along [children]. *)
Inductive reachable (g : graph) (ns : list nat) : nat -> Prop :=
| reach_root n : In n ns -> reachable g ns n
| reach_child m c : reachable g ns m -> In c (g_children g m) -> reachable g ns c.

(** Whether a node is of the base class [Node], which [_get_node_counts]
    rejects with [ValueError]. *)
Definition is_plain (g : graph) (n : nat) : bool := cls_eqb (g_cls g n) CNode.

(** The counts [(n_sumnodes, n_productnodes, n_leaves)] of the loop of
    [_get_node_counts] after visiting the nodes [ns] in order, from [c]. *)
Definition tally (g : graph) (c : nat * nat * nat) (ns : list nat) : nat * nat * nat :=
  fold_left (fun '(s, p, l) n =>
               match g_cls g n with
               | CSum => (S s, p, l)
               | CProduct => (s, S p, l)
               | CLeaf => (s, p, S l)
               | CNode => (s, p, l)
               end) ns c.

End LegacyTraversal.

(* ================================================================== *)
(** ** spflow/base/sampling/spn/layers/partition_layer.py *)
(* ================================================================== *)

Module PartitionSampling.

Record SamplingContext : Type := {
  instance_ids : list nat;
  output_ids : list (list nat)
}.

Definition list_nat_eqb (a b : list nat) : bool :=
  if list_eq_dec Nat.eq_dec a b then true else false.

(** Modelled from the spec: [SamplingContext.unique_outputs_ids] of
    spflow/meta/dispatch/sampling_context.py (not among the sources),
    which groups the requested instances by their requested output ids:
    the distinct output-id lists in order of first occurrence, and for
    each the positions of the instances requesting it. *)
Definition undup_lists (ls : list (list nat)) : list (list nat) :=
  fold_left (fun acc l => if existsb (list_nat_eqb l) acc then acc else acc ++ [l])
    ls [].

Definition unique_outputs_ids (ctx : SamplingContext)
    : list (list nat) * list (list nat) :=
  let keys := undup_lists (output_ids ctx) in
  (keys,
   map (fun k => filter (fun i => list_nat_eqb (nth i (output_ids ctx) []) k)
                   (seq 0 (length (output_ids ctx))))
     keys).

(** A recursive [sample] call on [partition_layer.nodes[node_id]] for the
    given instances. *)
Definition subcall : Type := (nat * list nat)%type.

(** The outcome of [sample], with the sub-calls made before it stopped:
    a normal return, the [ValueError] of the output-id check, or the
    [IndexError] of [partition_layer.nodes[node_id]]. *)
Inductive sample_outcome : Type :=
| SampleRet (calls : list subcall)
| SampleValueError (calls : list subcall)
| SampleIndexError (calls : list subcall).

(** The [for node_ids, indices in zip(...)] loop of [sample]. *)
Fixpoint sample_loop (n_out : nat) (ctx : SamplingContext)
    (groups : list (list nat * list nat)) (calls : list subcall) : sample_outcome :=
  match groups with
  | [] => SampleRet calls
  | (node_ids, indices) :: groups' =>
      if negb (Nat.eqb (length node_ids) 1)
         || (Nat.eqb (length node_ids) 0 && negb (Nat.eqb n_out 1))
      then SampleValueError calls
      else
        let node_id := hd 0 node_ids in
        let node_instance_ids := map (fun i => nth i (instance_ids ctx) 0) indices in
        if Nat.leb n_out node_id then SampleIndexError calls
        else sample_loop n_out ctx groups' (calls ++ [(node_id, node_instance_ids)])
  end.

Definition sample (n_out : nat) (ctx : SamplingContext) : sample_outcome :=
  let '(keys, idx) := unique_outputs_ids ctx in
  sample_loop n_out ctx (combine keys idx) [].

End PartitionSampling.

(* ================================================================== *)
(** ** learn_spn argument validation *)
(* ================================================================== *)

Module LearnSpn.

Inductive method : Type :=
| MethodName (s : string)
| MethodCallable.

Record FeatureContext : Type := {
  fc_query : list nat;
  fc_evidence : list nat
}.

Inductive learn_error : Type := InvalidInput.

Section Builder.

Variables (Data Module : Type) (n_cols : Data -> nat).
(** The recursive partition/cluster/fit construction after validation. *)
Variable build : Data -> FeatureContext -> method -> method -> nat -> nat -> bool -> Module.

Definition method_ok (m : method) (name : string) : bool :=
  match m with
  | MethodName s => String.eqb s name
  | MethodCallable => true
  end.

(** Modelled from the spec: the argument validation at the start of
    [learn_spn] (spflow/tensorly/learning/spn/learn_spn.py is not among
    the sources; only its tests are). The scope length must match the
    data columns, the methods must be known names or callables,
    [min_instances_slice] must be greater than 1 and
    [min_features_slice] "similarly", and a conditional scope is
    rejected together with [fit_params=True]. *)
Definition learn_spn (data : Data) (ctx : FeatureContext)
    (clustering_method partitioning_method : method)
    (min_instances_slice min_features_slice : nat) (fit_params : bool)
    : Module + learn_error :=
  if negb (Nat.eqb (length (fc_query ctx)) (n_cols data)) then inr InvalidInput
  else if negb (method_ok clustering_method "kmeans") then inr InvalidInput
  else if negb (method_ok partitioning_method "rdc") then inr InvalidInput
  else if Nat.leb min_instances_slice 1 then inr InvalidInput
  else if Nat.leb min_features_slice 1 then inr InvalidInput
  else if negb (Nat.eqb (length (fc_evidence ctx)) 0) && fit_params then inr InvalidInput
  else inl (build data ctx clustering_method partitioning_method
              min_instances_slice min_features_slice fit_params).

(** The call with the documented default arguments. *)
Definition learn_spn_defaults (data : Data) (ctx : FeatureContext) : Module + learn_error :=
  learn_spn data ctx (MethodName "kmeans") (MethodName "rdc") 200 1 true.

End Builder.

End LearnSpn.

(* ================================================================== *)
(** ** Log-likelihood of sum nodes and sum layers *)
(* ================================================================== *)

(* ================================================================== *)
(** ** spflow/tensorly/structure/general/layers/leaves/parametric/hypergeometric.py *)
(* ================================================================== *)

Module HypergeometricMarg.

(** A univariate [Hypergeometric] node: its scope [Scope([rv])] and its
    parameters [N], [M], [n]. *)
Record hnode : Type := { h_rv : nat; h_N : Z; h_M : Z; h_n : Z }.

(** Heap objects: a [HypergeometricLayer] (its list of nodes) or a
    plain [Hypergeometric] node; a reference is a position in the heap. *)
Inductive obj : Type :=
| HypergeometricLayer (nodes : list hnode)
| Hypergeometric (nd : hnode).

Definition heap := list obj.

Definition alloc (h : heap) (o : obj) : heap * nat := (h ++ [o], length h).

(** Modelled from the spec: [marginalize] for a [Hypergeometric] node
    (the node's file is not among the sources): a univariate node whose
    variable is removed is marginalized to [None], otherwise the node is
    returned unchanged. *)
Definition marginalize_node (nd : hnode) (marg_rvs : list nat) : option hnode :=
  if existsb (Nat.eqb (h_rv nd)) marg_rvs then None else Some nd.

(** The loop collecting [marg_node.scope] and [marg_node.get_params()]
    of the surviving nodes. *)
Fixpoint surviving (nodes : list hnode) (marg_rvs : list nat) : list hnode :=
  match nodes with
  | [] => []
  | nd :: rest =>
      match marginalize_node nd marg_rvs with
      | Some nd' => {| h_rv := h_rv nd'; h_N := h_N nd'; h_M := h_M nd'; h_n := h_n nd' |}
                      :: surviving rest marg_rvs
      | None => surviving rest marg_rvs
      end
  end.


End HypergeometricMarg.

(* ================================================================== *)
(** ** spflow/tensorly/structure/general/layers/leaves/parametric/hypergeometric.py :
       HypergeometricLayer *)
(* ================================================================== *)

Module HypergeometricLayer.

Import HypergeometricMarg.

(** A parameter argument of [set_params]: an [int], a list of ints (a
    one-dimensional tensor) or a tensor of higher dimension. *)
Inductive param : Type :=
| PInt (v : Z)
| PVec (v : list Z)
| PMat (v : list (list Z)).

(** Lines 202-211 (and the same for [M] and [n]): an [int] is broadcast
    to [n_out] values; [ndim != 1] or a length other than [n_out] raises
    [ValueError] ([None]). *)
Definition to_vec (n_out : nat) (p : param) : option (list Z) :=
  match p with
  | PInt v => Some (repeat v n_out)
  | PVec v => if Nat.eqb (length v) n_out then Some v else None
  | PMat _ => None
  end.

(** [vals[node_scopes == s]] *)
Definition values_at (node_scopes : list nat) (vals : list Z) (s : nat) : list Z :=
  map snd (filter (fun p => Nat.eqb (fst p) s) (combine node_scopes vals)).

(** Lines 241-255: for every scope in [tl_unique(node_scopes)], all values
    over that scope equal the first one. *)
Definition per_scope_identical (node_scopes : list nat) (vals : list Z) : bool :=
  forallb (fun s => match values_at node_scopes vals s with
                    | [] => true
                    | v0 :: _ => forallb (Z.eqb v0) (values_at node_scopes vals s)
                    end)
    (nodup Nat.eq_dec node_scopes).

(** The [scope] argument of [__init__]: one [Scope] or a list of them;
    a scope is its query variable. *)
Inductive scope_arg : Type :=
| OneScope (rv : nat)
| ScopeList (rvs : list nat).

Section Layer.

(** [Hypergeometric.set_params(N, M, n)] of one node, which raises on
    invalid values (the node class is not among the sources): [true]
    when it accepts them. *)
Variable node_params_ok : Z -> Z -> Z -> bool.

(** Lines 257-258: [for node_N, node_M, node_n, node in zip(N, M, n,
    self.nodes): node.set_params(...)]; the nodes before a rejected one
    keep their new parameters. The flag is [false] when a node raised. *)
Fixpoint set_nodes (nodes : list hnode) (Ns Ms ns : list Z) : list hnode * bool :=
  match nodes, Ns, Ms, ns with
  | nd :: nodes', N :: Ns', M :: Ms', n :: ns' =>
      if node_params_ok N M n then
        let '(rest, ok) := set_nodes nodes' Ns' Ms' ns' in
        ({| h_rv := h_rv nd; h_N := N; h_M := M; h_n := n |} :: rest, ok)
      else (nd :: nodes', false)
  | _, _, _, _ => (nodes, true)
  end.

(** [HypergeometricLayer.set_params(N, M, n)] on the layer's nodes: the
    resulting nodes and [false] if it raised [ValueError]. *)
Definition layer_set_params (nodes : list hnode) (N M n : param) : list hnode * bool :=
  let n_out := length nodes in
  match to_vec n_out N, to_vec n_out M, to_vec n_out n with
  | Some Ns, Some Ms, Some ns =>
      let node_scopes := map h_rv nodes in
      if per_scope_identical node_scopes Ns && per_scope_identical node_scopes Ms
         && per_scope_identical node_scopes ns
      then set_nodes nodes Ns Ms ns
      else (nodes, false)
  | _, _, _ => (nodes, false)
  end.

(** [HypergeometricLayer(scope, N, M, n, n_nodes)] (lines 53-104): the
    nodes [Hypergeometric(s, 1, 1, 1)] are created, then [set_params]
    runs; [None] when the constructor raises. *)
Definition layer_init (scope : scope_arg) (N M n : param) (n_nodes : Z) : option (list hnode) :=
  let scopes :=
    match scope with
    | OneScope s => if (n_nodes <? 1)%Z then None else Some (repeat s (Z.to_nat n_nodes))
    | ScopeList [] => None
    | ScopeList l => Some l
    end in
  match scopes with
  | None => None
  | Some ss =>
      let nodes := map (fun s => {| h_rv := s; h_N := 1; h_M := 1; h_n := 1 |}) ss in
      let '(nodes', ok) := layer_set_params nodes N M n in
      if ok then Some nodes' else None
  end.

End Layer.

(** [get_params()]: [(self.N, self.M, self.n)], read from the nodes. *)
Definition get_params (nodes : list hnode) : list Z * list Z * list Z :=
  (map h_N nodes, map h_M nodes, map h_n nodes).

(** Nodes over the same variable have the same parameters. *)
Definition same_scope_same_params (nds : list hnode) : Prop :=
  forall a b, In a nds -> In b nds -> h_rv a = h_rv b ->
    h_N a = h_N b /\ h_M a = h_M b /\ h_n a = h_n b.

End HypergeometricLayer.

(* ================================================================== *)
(** ** spflow/torch/learning/general/nodes/leaves/parametric/geometric.py *)
(* ================================================================== *)

Module GeometricMLE.

Local Open Scope R_scope.

(** Tensor storage: a tensor is a reference to its storage; [reshape]
    and [squeeze] return views on the same storage, boolean-mask
    indexing and [torch.ones] allocate new storage. *)
Record tstore : Type := { tmem : nat -> list R; tnext : nat }.

Definition write (st : tstore) (r : nat) (v : list R) : tstore :=
  {| tmem := fun r' => if Nat.eqb r' r then v else tmem st r'; tnext := tnext st |}.

Definition talloc (st : tstore) (v : list R) : tstore * nat :=
  ({| tmem := fun r' => if Nat.eqb r' (tnext st) then v else tmem st r';
      tnext := S (tnext st) |}, tnext st).

Inductive nan_strategy : Type :=
| NanNone
| NanStr (s : string)
(** a callable producing the replacement data *)
| NanCallable (f : list (option R) -> list R)
(** any other Python object *)
| NanOther.

Inductive mle_error : Type := ValueError | TypeError | RuntimeError.

Inductive mle_outcome : Type :=
| MleOk (st : tstore) (p : R)   (* value set by [leaf.set_params(p=...)] *)
| MleErr (st : tstore) (e : mle_error).

(** A Python float or a zero-dimensional tensor. *)
Inductive pyval : Type := PyFloat (v : R) | Tensor (v : R).

(** [torch.isclose(a, torch.tensor(b))] with [rtol=1e-5], [atol=1e-8];
    a Python float as first argument is a [TypeError]. *)
Definition torch_isclose (a : pyval) (b : R) : option bool :=
  match a with
  | PyFloat _ => None
  | Tensor v => Some (if Rle_dec (Rabs (v - b)) (1e-8 + 1e-5 * Rabs b) then true else false)
  end.

Definition Rsum (xs : list R) : R := fold_right Rplus 0 xs.

(** [weights * scope_data] on shapes [(n,1)] and [(m,1)], broadcasting a
    length-one operand. *)
Definition bcast_mul (ws xs : list R) : option (list R) :=
  if Nat.eqb (length ws) (length xs) then Some (map (fun '(w, x) => w * x) (combine ws xs))
  else if Nat.eqb (length ws) 1 then Some (map (fun x => hd 0 ws * x) xs)
  else if Nat.eqb (length xs) 1 then Some (map (fun w => w * hd 0 xs) ws)
  else None.

(** Modelled from the spec: [leaf.set_params(p=...)] of the [Geometric]
    leaf (the leaf class is not among the sources) accepts [0 < p <= 1]
    and raises [ValueError] otherwise. *)
Definition geometric_p_ok (p : R) : bool :=
  if Rlt_dec 0 p then if Rle_dec p 1 then true else false else false.

Definition leaf_set_params (st : tstore) (p : R) : mle_outcome :=
  if geometric_p_ok p then MleOk st p else MleErr st ValueError.

(** Lines 129-151: normalize the weights in place, estimate, clamp, and
    set the leaf's parameter. *)
Definition mle_core (st : tstore) (w : nat) (scope_data : list R) (bias_correction : bool)
    : mle_outcome :=
  let ws := tmem st w in
  let scale := Rsum ws / INR (length scope_data) in
  let ws' := map (fun x => x / scale) ws in
  let st' := write st w ws' in
  let n_total := Rsum ws' - (if bias_correction then 1 else 0) in
  match bcast_mul ws' scope_data with
  | None => MleErr st' RuntimeError
  | Some prods =>
      let n_trials := Rsum prods in
      let p_est := if Req_EM_T n_trials 0 then PyFloat 1e-8 else Tensor (n_total / n_trials) in
      match torch_isclose p_est 0 with
      | None => MleErr st' TypeError
      | Some true => leaf_set_params st' 1e-8
      | Some false =>
          match torch_isclose p_est 1 with
          | None => MleErr st' TypeError
          | Some true => leaf_set_params st' (1 - 1e-8)
          | Some false => leaf_set_params st' (match p_est with PyFloat v | Tensor v => v end)
          end
      end
  end.

Definition is_nan (x : option R) : bool :=
  match x with None => true | Some _ => false end.

(** [scope_data[~nan_mask]] *)
Fixpoint keep_rows (data : list (option R)) : list R :=
  match data with
  | [] => []
  | Some v :: rest => v :: keep_rows rest
  | None :: rest => keep_rows rest
  end.

(** [weights[~nan_mask]] *)
Fixpoint keep_weights (data : list (option R)) (ws : list R) : list R :=
  match data, ws with
  | Some _ :: data', w :: ws' => w :: keep_weights data' ws'
  | None :: data', _ :: ws' => keep_weights data' ws'
  | _, _ => []
  end.

(** [scope_data] without NaN entries, as a tensor of reals. *)
Definition unwrap (data : list (option R)) : list R :=
  map (fun x => match x with Some v => v | None => 0 end) data.

(** [if weights is None: weights = torch.ones(data.shape[0])] *)
Definition init_weights (st : tstore) (weights : option nat) (n : nat) : tstore * nat :=
  match weights with
  | None => talloc st (repeat 1 n)
  | Some r => (st, r)
  end.

Section WithSupport.

(** [leaf.check_support] on one non-missing value (the leaf class is
    not among the sources); missing values are in the support. *)
Variable in_support : R -> bool.

Definition supported (x : option R) : bool :=
  match x with None => true | Some v => in_support v end.

(** [maximum_likelihood_estimation(leaf, data, weights, bias_correction,
    nan_strategy, check_support)]; [scope_data] is the leaf's column
    [data[:, leaf.scope.query]], [weights] the storage of the caller's
    one-dimensional weights tensor, if any. *)
Definition maximum_likelihood_estimation (st : tstore) (scope_data : list (option R))
    (weights : option nat) (bias_correction : bool) (nan : nan_strategy)
    (check_support : bool) : mle_outcome :=
  let '(st1, w) := init_weights st weights (length scope_data) in
  if negb (Nat.eqb (length (tmem st1 w)) (length scope_data)) then MleErr st1 ValueError
  else if check_support && existsb (fun x => negb (supported x)) scope_data
  then MleErr st1 ValueError
  else if forallb is_nan scope_data then MleErr st1 ValueError
  else if match nan with NanNone => true | _ => false end && existsb is_nan scope_data
  then MleErr st1 ValueError
  else
    match nan with
    | NanNone => mle_core st1 w (unwrap scope_data) bias_correction
    | NanStr s =>
        if String.eqb s "ignore" then
          let '(st2, w2) := talloc st1 (keep_weights scope_data (tmem st1 w)) in
          mle_core st2 w2 (keep_rows scope_data) bias_correction
        else MleErr st1 ValueError
    | NanCallable f => mle_core st1 w (f scope_data) bias_correction
    | NanOther => MleErr st1 ValueError
    end.

(** [em(leaf, data, check_support, dispatch_ctx)]; [grad] is the storage
    of [dispatch_ctx.cache["log_likelihood"][leaf].grad]. *)
Definition em (st : tstore) (scope_data : list (option R)) (grad : nat)
    (check_support : bool) : mle_outcome :=
  let expectations := tmem st grad in
  let st1 := write st grad (map (fun x => x / Rsum expectations) expectations) in
  maximum_likelihood_estimation st1 scope_data (Some grad) false NanNone check_support.

End WithSupport.

(** The store an outcome leaves behind. *)
Definition outcome_store (o : mle_outcome) : tstore :=
  match o with MleOk st _ | MleErr st _ => st end.

End GeometricMLE.

(* ================================================================== *)
(** ** spn/leaves/Histograms.py *)
(* ================================================================== *)

Module Histograms.

Local Open Scope R_scope.

(** Python list indexing [l[i]], negative indices counting from the
    end; [None] is an [IndexError]. *)
Definition py_index (l : list R) (i : Z) : option R :=
  if (i <? 0)%Z then
    if (Z.to_nat (- i) <=? length l)%nat then nth_error l (length l - Z.to_nat (- i))
    else None
  else nth_error l (Z.to_nat i).

(** [j = 0; for b in node.breaks: if b > x: break; j += 1] *)
Fixpoint scan (breaks : list R) (x : R) (j : nat) : nat :=
  match breaks with
  | [] => j
  | b :: bs => if Rlt_dec x b then j else scan bs x (S j)
  end.

(** The probability written to [probs[i]] for one value [x]; [None] is
    an [IndexError]. *)
Definition prob_of (breaks densities : list R) (x : R) : option R :=
  match py_index breaks 0 with
  | None => None
  | Some b0 =>
      if Rlt_dec x b0 then Some 0
      else match py_index breaks (-1) with
           | None => None
           | Some bl =>
               if Rlt_dec bl x then Some 0
               else py_index densities (Z.of_nat (scan breaks x 0) - 1)
           end
  end.

Fixpoint probs_of (breaks densities : list R) (data : list R) : option (list R) :=
  match data with
  | [] => Some []
  | x :: rest =>
      match prob_of breaks densities x, probs_of breaks densities rest with
      | Some p, Some ps => Some (p :: ps)
      | _, _ => None
      end
  end.

(** [probs[probs < EPSILON] = EPSILON] *)
Definition floor (EPSILON p : R) : R := if Rlt_dec p EPSILON then EPSILON else p.

(** [histogram_likelihood(node, data)]; [EPSILON] is the constant
    [Inference.EPSILON] of spn/algorithms (not among the sources). *)
Definition histogram_likelihood (EPSILON : R) (breaks densities : list R) (data : list R)
    : option (list R) :=
  match probs_of breaks densities data with
  | None => None
  | Some probs => Some (map (fun p => ln (floor EPSILON p)) probs)
  end.

(** The density of the bin holding [x] for ascending breaks: the first
    bin [breaks[i], breaks[i+1]] whose upper break exceeds [x]. *)
Fixpoint containing_bin_density (breaks densities : list R) (x : R) : R :=
  match breaks, densities with
  | _ :: ((b1 :: _) as rest), d :: ds =>
      if Rlt_dec x b1 then d else containing_bin_density rest ds x
  | _, _ => 0
  end.

End Histograms.

(* ================================================================== *)
(** ** spn/leaves/Histograms.py : create_histogram_leaf *)
(* ================================================================== *)

Module HistogramLeaf.

Local Open Scope R_scope.

(** [np.sum] on a vector. *)
Definition rsum (xs : list R) : R := fold_right Rplus 0 xs.

(** [np.mean]; it is not used on empty data below. *)
Definition np_mean (xs : list R) : R := rsum xs / INR (length xs).

(** [np.var] with the default [ddof=0]. *)
Definition np_var (xs : list R) : R := np_mean (map (fun x => (x - np_mean xs) ^ 2) xs).

(** [np.max] and [np.min]; [None] where numpy raises on an empty array. *)
Fixpoint list_max (xs : list R) : option R :=
  match xs with
  | [] => None
  | x :: rest => match list_max rest with None => Some x | Some m => Some (Rmax x m) end
  end.

Fixpoint list_min (xs : list R) : option R :=
  match xs with
  | [] => None
  | x :: rest => match list_min rest with None => Some x | Some m => Some (Rmin x m) end
  end.

(** Comparisons of floats as booleans. *)
Definition Rleb (a b : R) : bool := if Rle_dec a b then true else false.
Definition Rltb (a b : R) : bool := if Rlt_dec a b then true else false.
Definition Reqb (a b : R) : bool := if Req_EM_T a b then true else false.

(** Bin membership in [np.histogram]: [[lo, hi)], the last bin closed. *)
Definition in_bin (lo hi : R) (closed : bool) (x : R) : bool :=
  Rleb lo x && (if closed then Rleb x hi else Rltb x hi).

(** The counts of [np.histogram(data, bins=edges)]; values outside
    [[edges[0], edges[-1]]] are not counted. *)
Fixpoint hist_counts (edges data : list R) : list R :=
  match edges with
  | e0 :: ((e1 :: rest') as rest) =>
      INR (length (filter (in_bin e0 e1 (match rest' with [] => true | _ => false end)) data))
      :: hist_counts rest data
  | _ => []
  end.

(** [np.diff(edges)] *)
Fixpoint widths (edges : list R) : list R :=
  match edges with
  | e0 :: ((e1 :: _) as rest) => (e1 - e0) :: widths rest
  | _ => []
  end.

(** [np.histogram] raises [ValueError] unless the bins increase
    monotonically, i.e. no edge is below its predecessor. *)
Fixpoint nondecreasing (edges : list R) : bool :=
  match edges with
  | e0 :: ((e1 :: _) as rest) => Rleb e0 e1 && nondecreasing rest
  | _ => true
  end.

(** The densities of [np.histogram(data, bins=edges, density=True)],
    [counts / np.diff(edges) / counts.sum()]; [None] where a division by
    zero makes some density non-finite (inf or nan). *)
Definition np_histogram_density (data edges : list R) : option (list R) :=
  let cs := hist_counts edges data in
  let ws := widths edges in
  if existsb (fun w => Reqb w 0) ws || Reqb (rsum cs) 0 then None
  else Some (map (fun '(c, w) => c / w / rsum cs) (combine cs ws)).

(** The result of [create_histogram_leaf]: a [Histogram] with its
    breaks and densities, a raised exception (an [assert], an index
    error, numpy's [ValueError] or the invalid statistical type), or a
    histogram whose densities are not finite because of a division by
    zero. *)
Inductive hist_outcome : Type :=
| HistOk (breaks densities : list R)
| HistRaise
| HistNonFinite.

(** The fields of [ds_context] read by [create_histogram_leaf]. *)
Record ds_context : Type := {
  statistical_type : list string;
  domain : list (list R)
}.

Section CreateLeaf.

(** [getHistogramVals(data)] calls R through rpy2 and returns
    [(breaks, densities, mids)]; it is not among the code modelled. *)
Variable getHistogramVals : list R -> list R * list R * list R.

(** [create_histogram_leaf(data, ds_context, scope, alpha)] on a
    one-column [data]; [if alpha:] is false exactly for [alpha = 0]. *)
Definition create_histogram_leaf (data : list R) (ctx : ds_context) (scope : list nat)
    (alpha : R) : hist_outcome :=
  if negb (Nat.eqb (length scope) 1) then HistRaise else
  let idx := hd O scope in
  match nth_error (statistical_type ctx) idx, nth_error (domain ctx) idx with
  | Some st, Some dom =>
      let pre :=
        if String.eqb st "continuous" then
          match list_max dom, list_min dom with
          | Some maxx, Some minx =>
              if match data with [] => false | _ => Rltb 1e-10 (np_var data) end
              then let '(breaks, densities, mids) := getHistogramVals data in
                   Some (Some (breaks, densities))
              else if Reqb (maxx - minx) 0 then Some None
              else Some (Some ([minx; maxx], [1 / (maxx - minx)]))
          | _, _ => None
          end
        else if String.eqb st "discrete" || String.eqb st "categorical" then
          match dom with
          | [] => None
          | _ =>
              let breaks := dom ++ [last dom 0 + 1] in
              if nondecreasing breaks then
                match np_histogram_density data breaks with
                | None => Some None
                | Some dens => Some (Some (breaks, dens))
                end
              else None
          end
        else None in
      match pre with
      | None => HistRaise
      | Some None => HistNonFinite
      | Some (Some (breaks, dens)) =>
          let dens' :=
            if Reqb alpha 0 then dens
            else
              let n_samples := INR (length data) in
              let n_bins := INR (length breaks - 1) in
              map (fun d => (d * n_samples + alpha) / (n_samples + n_bins * alpha)) dens in
          if Nat.eqb (length dens') (length breaks - 1) then HistOk breaks dens' else HistRaise
      end
  | _, _ => HistRaise
  end.

End CreateLeaf.

(** Inserting [x] into an ascending list without duplicates. *)
Fixpoint insert_uniq (x : R) (l : list R) : list R :=
  match l with
  | [] => [x]
  | y :: l' => if Rltb x y then x :: l else if Reqb x y then l else y :: insert_uniq x l'
  end.

(** [np.unique]: the sorted distinct values. *)
Definition np_unique (xs : list R) : list R := fold_right insert_uniq [] xs.

(** [add_domains(data, ds_context)] on [data] given as its list of
    columns [data[:, col]]; [None] where it raises ([IndexError] for a
    missing statistical type, [ValueError] for [np.min] or [np.max] of an
    empty column). A column of any other type gets no domain entry. *)
Fixpoint column_domains (cols : list (list R)) (stypes : list string) : option (list (list R)) :=
  match cols with
  | [] => Some []
  | col :: rest =>
      match stypes with
      | [] => None
      | feature_type :: stypes' =>
          let tail := column_domains rest stypes' in
          if String.eqb feature_type "continuous" then
            match list_min col, list_max col, tail with
            | Some mn, Some mx, Some ds => Some ([mn; mx] :: ds)
            | _, _, _ => None
            end
          else if String.eqb feature_type "discrete" || String.eqb feature_type "categorical" then
            match tail with Some ds => Some (np_unique col :: ds) | None => None end
          else tail
      end
  end.

(** [ds_context.domain] after [add_domains]. *)
Definition add_domains (cols : list (list R)) (ctx : ds_context) : option ds_context :=
  match column_domains cols (statistical_type ctx) with
  | Some ds => Some {| statistical_type := statistical_type ctx; domain := ds |}
  | None => None
  end.

(** The domain [[d0, d0 + 1, ..., d0 + m - 1]] shifted by [start]. *)
Definition unit_edges (d0 : R) (start m : nat) : list R := map (fun i => d0 + INR i) (seq start m).


End HistogramLeaf.

(* ================================================================== *)
(** ** Concrete inputs used by the examples below *)

Module Fixtures.

Import LegacyGraph LegacyTraversal.

(** A sum node [0] over two leaves [1] and [2]; the caller's list is the
    list object [0] holding [[0]]. *)
Definition g_ex : graph :=
  {| g_cls := fun n => match n with 0 => CSum | _ => CLeaf end;
     g_children := fun n => match n with 0 => [1; 2] | _ => [] end |}.

Definition h_ex : pyheap :=
  {| cells := fun r => match r with 0 => [0] | _ => [] end; next_ref := 1 |}.

(** A sum node [0] that is its own child; the caller's list is the list
    object [0] holding [[0]]. *)
Definition g_loop : graph :=
  {| g_cls := fun _ => CSum; g_children := fun _ => [1] |}.

Definition h_loop : pyheap :=
  {| cells := fun r => match r with 0 => [0] | _ => [] end; next_ref := 1 |}.

Import PartitionSampling.

Definition ctx_ex : SamplingContext :=
  {| instance_ids := [4; 5; 6]; output_ids := [[1]; [0]; [1]] |}.

Import HypergeometricMarg.

Definition nd0 : hnode := {| h_rv := 0; h_N := 10; h_M := 4; h_n := 3 |}.
Definition nd1 : hnode := {| h_rv := 1; h_N := 8; h_M := 2; h_n := 5 |}.

(** A validity check of hypergeometric parameters:
    [0 <= M <= N] and [0 <= n <= N]. *)
Definition hyper_ok (N M n : Z) : bool :=
  (0 <=? M)%Z && (M <=? N)%Z && (0 <=? n)%Z && (n <=? N)%Z.

Import GeometricMLE.
Local Open Scope R_scope.

Definition st_ex : tstore := {| tmem := fun r => match r with O => [2; 2] | _ => [] end;
                                tnext := 1%nat |}.

End Fixtures.


(** * Theorems *)
(* ================================================================== *)

Module GraphFacts.

Import LegacyGraph.

Example equals_refl_leaf : equals (LeafNode [0%Z]) (LeafNode [0%Z]) = true.
Proof. reflexivity. Qed.

Example equals_sum_weights :
  equals (SumNode [LeafNode [0%Z]] [0%Z] [1 # 2; 1 # 2]%Q)
         (SumNode [LeafNode [0%Z]] [0%Z] [1 # 2]%Q) = false.
Proof. reflexivity. Qed.

(** C7 (code_bug): [Node.equals] compares the children with Python's
    two-argument [map], which stops at the shorter list, and never
    compares the numbers of children; two product nodes with the same
    scope, one of them with an extra child, are reported equal although
    their child counts differ. *)
Theorem equals_ignores_extra_children :
  equals (ProductNode [LeafNode [0%Z]] [0%Z; 1%Z])
         (ProductNode [LeafNode [0%Z]; LeafNode [1%Z]] [0%Z; 1%Z]) = true
  /\ length (children_of (ProductNode [LeafNode [0%Z]] [0%Z; 1%Z]))
     <> length (children_of (ProductNode [LeafNode [0%Z]; LeafNode [1%Z]] [0%Z; 1%Z])).
Proof. split; [vm_compute; reflexivity | simpl; discriminate]. Qed.


(** Induction on nodes with a hypothesis for every child. *)
Lemma node_ind' (P : node -> Prop)
  (HN : forall c s, Forall P c -> P (Node c s))
  (HS : forall c s w, Forall P c -> P (SumNode c s w))
  (HP : forall c s, Forall P c -> P (ProductNode c s))
  (HL : forall s, P (LeafNode s)) : forall n, P n.
Proof.
exact (
  fix go (n : node) : P n :=
    let fix go_list (l : list node) : Forall P l :=
      match l with
      | [] => Forall_nil P
      | x :: l' => Forall_cons x (go x) (go_list l')
      end in
    match n with
    | Node c s => HN c s (go_list c)
    | SumNode c s w => HS c s w (go_list c)
    | ProductNode c s => HP c s (go_list c)
    | LeafNode s => HL s
    end).
Qed.

Lemma list_Z_eqb_refl l : list_Z_eqb l l = true.
Proof. induction l; simpl; [reflexivity|]. now rewrite Z.eqb_refl. Qed.

Lemma list_Z_eqb_sym a b : list_Z_eqb a b = list_Z_eqb b a.
Proof. revert b; induction a; destruct b; simpl; auto. now rewrite Z.eqb_sym, IHa. Qed.

Lemma isclose_rel_refl x : isclose_rel x x = true.
Proof.
  unfold isclose_rel. apply Qle_bool_iff.
  setoid_replace (x - x)%Q with 0%Q by ring. simpl.
  apply Q.le_max_r.
Qed.

Lemma isclose_rel_sym x y : isclose_rel x y = isclose_rel y x.
Proof.
  unfold isclose_rel.
  assert (E1 : (Qabs (x - y) == Qabs (y - x))%Q).
  { rewrite <- Qabs_opp. apply Qabs_wd. ring. }
  assert (E2 : (Qmax ((1 # 100000) * Qmax (Qabs x) (Qabs y)) 0
               == Qmax ((1 # 100000) * Qmax (Qabs y) (Qabs x)) 0)%Q).
  { now rewrite (Q.max_comm (Qabs x)). }
  destruct (Qle_bool _ _) eqn:A; destruct (Qle_bool (Qabs (y - x)) _) eqn:B; auto.
  - apply Qle_bool_iff in A. rewrite E1, E2 in A. apply Qle_bool_iff in A. congruence.
  - apply Qle_bool_iff in B. rewrite <- E1, <- E2 in B. apply Qle_bool_iff in B. congruence.
Qed.

(** X1: [equals] is reflexive: every node, with its children and (for a
    sum node) its weights, equals itself. *)
Theorem equals_refl (a : node) : equals a a = true.
Proof.
  induction a using node_ind'; simpl; rewrite ?list_Z_eqb_refl; simpl;
  try (induction H; simpl; [reflexivity|]; rewrite H; simpl; exact IHForall).
  - rewrite Nat.eqb_refl, andb_true_r.
    assert (Hw : all_map2 isclose_rel w w = true).
    { induction w; simpl; [reflexivity|]. now rewrite isclose_rel_refl. }
    rewrite Hw, andb_true_r.
    induction H; simpl; [reflexivity|]. rewrite H; simpl; exact IHForall.
  - reflexivity.
Qed.

Lemma all_map2_sym_isclose (wa wb : list Q) :
  all_map2 isclose_rel wa wb = all_map2 isclose_rel wb wa.
Proof. revert wb; induction wa; destruct wb; simpl; auto. now rewrite isclose_rel_sym, IHwa. Qed.

Lemma all_map2_equals_sym (ca : list node) :
  Forall (fun a => forall b, equals a b = equals b a) ca ->
  forall cb, all_map2 equals ca cb = all_map2 equals cb ca.
Proof.
  induction 1 as [|x l Hx _ IH]; destruct cb; simpl; auto. now rewrite Hx, IH.
Qed.

(** X2: [equals] is symmetric: [a.equals(b)] and [b.equals(a)] agree, also
    across node classes and for children or weight lists of different
    lengths. *)
Theorem equals_sym (a b : node) : equals a b = equals b a.
Proof.
  revert b. induction a using node_ind'; intros b; destruct b; simpl; auto;
  rewrite ?(list_Z_eqb_sym s), ?(all_map2_equals_sym _ H); auto.
  - rewrite all_map2_sym_isclose, Nat.eqb_sym. reflexivity.
Qed.

End GraphFacts.

Module TraversalFacts.

Import Fixtures.
Import LegacyGraph LegacyTraversal.

Lemma upd_same (h : pyheap) (r : nat) (v : list nat) : cells (upd h r v) r = v.
Proof. simpl. now rewrite Nat.eqb_refl. Qed.

Lemma upd_other (h : pyheap) (r q : nat) (v : list nat) :
  q <> r -> cells (upd h r v) q = cells h q.
Proof. intros Hne. simpl. now rewrite (proj2 (Nat.eqb_neq q r) Hne). Qed.

Lemma count_loop_empties (g : graph) (fuel : nat) :
  forall h r c h' c', count_loop g fuel h r c = CountRet h' c' -> cells h' r = [].
Proof.
  induction fuel as [|fuel IH]; intros h r c h' c' Hrun; simpl in Hrun.
  - discriminate.
  - destruct (cells h r) as [|n rest] eqn:Hr.
    + injection Hrun as <- <-. exact Hr.
    + destruct c as [[s p] l].
      destruct (g_cls g n); try discriminate; eapply IH; exact Hrun.
Qed.

Lemma print_loop_frame (g : graph) (fuel : nat) :
  forall h r out h' out' q,
    print_loop g fuel h r out = PrintRet h' out' -> q <> r -> cells h' q = cells h q.
Proof.
  induction fuel as [|fuel IH]; intros h r out h' out' q Hrun Hq; simpl in Hrun.
  - discriminate.
  - destruct (cells h r) as [|n rest].
    + now injection Hrun as <- <-.
    + rewrite (IH _ _ _ _ _ q Hrun Hq). rewrite !upd_other by exact Hq. reflexivity.
Qed.

(** C9: [_get_node_counts] works on the caller's list object itself
    ([nodes = root_nodes]) and leaves it empty when it returns, while
    [_print_node_graph] traverses a copy ([list(root_nodes)]) and leaves
    the caller's list as it was. *)
Theorem node_counts_consumes_roots_print_copies (g : graph) (fuel : nat)
    (h : pyheap) (root_nodes : nat) (Hlive : root_nodes < next_ref h) :
  (forall h' counts,
      _get_node_counts g fuel h root_nodes = CountRet h' counts ->
      cells h' root_nodes = [])
  /\ (forall h' printed,
      _print_node_graph g fuel h root_nodes = PrintRet h' printed ->
      cells h' root_nodes = cells h root_nodes).
Proof.
  split.
  - intros h' counts Hrun. eapply count_loop_empties. exact Hrun.
  - intros h' printed Hrun. unfold _print_node_graph, alloc in Hrun.
    assert (Hne : root_nodes <> next_ref h) by lia.
    rewrite (print_loop_frame _ _ _ _ _ _ _ root_nodes Hrun Hne). simpl.
    now rewrite (proj2 (Nat.eqb_neq _ _) Hne).
Qed.

Example node_counts_ex :
  match _get_node_counts g_ex 10 h_ex 0 with
  | CountRet h' c => cells h' 0 = [] /\ c = (1, 0, 2)
  | _ => False
  end.
Proof. vm_compute. split; reflexivity. Qed.

Lemma node_counts_consumes_roots_print_copies_witness :
  0 < next_ref h_ex
  /\ (forall h' counts, _get_node_counts g_ex 10 h_ex 0 = CountRet h' counts ->
                        cells h' 0 = [])
  /\ (forall h' printed, _print_node_graph g_ex 10 h_ex 0 = PrintRet h' printed ->
                         cells h' 0 = cells h_ex 0).
Proof.
  assert (H : 0 < next_ref h_ex) by (simpl; lia).
  split; [exact H | exact (node_counts_consumes_roots_print_copies g_ex 10 h_ex 0 H)].
Defined.


Lemma cells_upd_upd h r v w : cells (upd (upd h r v) r w) r = w.
Proof. simpl. now rewrite Nat.eqb_refl. Qed.

Lemma loops_agree (g : graph) (fuel : nat) :
  forall h r h' r' c out, cells h r = cells h' r' ->
  (forall hh c', count_loop g fuel h r c = CountRet hh c' ->
     exists hh' p, print_loop g fuel h' r' out = PrintRet hh' (out ++ p)
       /\ c' = tally g c p /\ existsb (is_plain g) p = false)
  /\ (forall hh res, print_loop g fuel h' r' out = PrintRet hh res ->
     exists p, res = out ++ p
       /\ (if existsb (is_plain g) p then exists hh', count_loop g fuel h r c = CountRaise hh'
           else exists hh', count_loop g fuel h r c = CountRet hh' (tally g c p))).
Proof.
  induction fuel as [|fuel IH]; intros h r h' r' c out Hc; simpl; split; try discriminate.
  - intros hh c' Hrun. rewrite <- Hc.
    destruct (cells h r) as [|n rest] eqn:E.
    + injection Hrun as _ <-. exists h', []. rewrite app_nil_r. auto.
    + destruct c as [[s p] l].
      set (v := rest ++ set_minus (g_children g n) rest) in *.
      assert (Hc2 : cells (upd (upd h r rest) r v) r = cells (upd (upd h' r' rest) r' v) r')
        by now rewrite !cells_upd_upd.
      destruct (g_cls g n) eqn:Ecl; try discriminate;
        destruct (proj1 (IH _ _ _ _ _ (out ++ [n]) Hc2) _ _ Hrun) as [hh' [q [Hp [Hcq Hq]]]];
        exists hh', (n :: q); rewrite <- app_assoc in Hp; simpl in Hp;
        (split; [exact Hp|]); simpl; unfold is_plain at 1; rewrite Ecl; simpl; split; auto.
  - intros hh res Hrun. rewrite <- Hc in Hrun.
    destruct (cells h r) as [|n rest] eqn:E.
    + injection Hrun as _ <-. exists []. rewrite app_nil_r. simpl. split; [reflexivity|].
      eexists; reflexivity.
    + destruct c as [[s p] l].
      set (v := rest ++ set_minus (g_children g n) rest) in *.
      assert (Hc2 : cells (upd (upd h r rest) r v) r = cells (upd (upd h' r' rest) r' v) r')
        by now rewrite !cells_upd_upd.
      destruct (g_cls g n) eqn:Ecl.
      * destruct (proj2 (IH _ _ _ _ (s, p, l) (out ++ [n]) Hc2) _ _ Hrun) as [q [Hres _]].
        exists (n :: q). rewrite Hres, <- app_assoc. split; [reflexivity|].
        simpl. unfold is_plain at 1. rewrite Ecl. simpl. eexists; reflexivity.
      * destruct (proj2 (IH _ _ _ _ (S s, p, l) (out ++ [n]) Hc2) _ _ Hrun) as [q [Hres Hq]].
        exists (n :: q). rewrite Hres, <- app_assoc. split; [reflexivity|].
        simpl. unfold is_plain at 1. simpl. rewrite Ecl. simpl. exact Hq.
      * destruct (proj2 (IH _ _ _ _ (s, S p, l) (out ++ [n]) Hc2) _ _ Hrun) as [q [Hres Hq]].
        exists (n :: q). rewrite Hres, <- app_assoc. split; [reflexivity|].
        simpl. unfold is_plain at 1. simpl. rewrite Ecl. simpl. exact Hq.
      * destruct (proj2 (IH _ _ _ _ (s, p, S l) (out ++ [n]) Hc2) _ _ Hrun) as [q [Hres Hq]].
        exists (n :: q). rewrite Hres, <- app_assoc. split; [reflexivity|].
        simpl. unfold is_plain at 1. simpl. rewrite Ecl. simpl. exact Hq.
Qed.

(** X3: [_get_node_counts] and [_print_node_graph] visit the same nodes in
    the same order: when counting returns, printing returns the list of
    visited nodes, none of class [Node], and the counts are the tally of
    that list; when printing returns, counting returns that tally, or
    raises if a printed node is of class [Node]. *)
Theorem node_counts_agree_with_print (g : graph) (fuel : nat) (h : pyheap) (root_nodes : nat) :
  (forall h' c, _get_node_counts g fuel h root_nodes = CountRet h' c ->
     exists h'' p, _print_node_graph g fuel h root_nodes = PrintRet h'' p
       /\ c = tally g (0, 0, 0) p /\ existsb (is_plain g) p = false)
  /\ (forall h'' p, _print_node_graph g fuel h root_nodes = PrintRet h'' p ->
     if existsb (is_plain g) p
     then exists h', _get_node_counts g fuel h root_nodes = CountRaise h'
     else exists h', _get_node_counts g fuel h root_nodes = CountRet h' (tally g (0, 0, 0) p)).
Proof.
  unfold _get_node_counts, _print_node_graph, alloc.
  assert (Hc : cells h root_nodes
               = cells {| cells := fun r' => if Nat.eqb r' (next_ref h) then cells h root_nodes
                                             else cells h r';
                          next_ref := S (next_ref h) |} (next_ref h))
    by (simpl; now rewrite Nat.eqb_refl).
  destruct (loops_agree g fuel _ _ _ _ (0, 0, 0) [] Hc) as [H1 H2]. split.
  - intros h' c Hrun. exact (H1 _ _ Hrun).
  - intros h'' p Hrun. destruct (H2 _ _ Hrun) as [q [-> Hq]]. exact Hq.
Qed.

Lemma self_loop_stays (g : graph) (h : pyheap) (r n : nat) :
  In n (g_children g n) -> In n (cells h r) ->
  match cells h r with
  | [] => False
  | m :: rest => In n (cells (upd (upd h r rest) r (rest ++ set_minus (g_children g m) rest)) r)
  end.
Proof.
  intros Hloop Hin. destruct (cells h r) as [|m rest]; [exact Hin|].
  rewrite cells_upd_upd. apply in_or_app.
  destruct (Nat.eq_dec m n) as [->|Hne].
  - destruct (in_dec Nat.eq_dec n rest) as [Hr|Hr]; [now left|right].
    unfold set_minus. apply nodup_In, filter_In. split; [exact Hloop|].
    apply negb_true_iff. apply not_true_iff_false. intros Hex.
    apply existsb_exists in Hex as [y [Hy Heq]]. apply Nat.eqb_eq in Heq. subst y. contradiction.
  - left. destruct Hin as [->|Hin]; [congruence|exact Hin].
Qed.

Lemma print_loop_self_loop_stuck (g : graph) (n : nat) (Hloop : In n (g_children g n)) :
  forall fuel h r out, In n (cells h r) -> forall hh res, print_loop g fuel h r out <> PrintRet hh res.
Proof.
  induction fuel as [|fuel IH]; intros h r out Hin hh res; simpl; [discriminate|].
  pose proof (self_loop_stays g h r n Hloop Hin) as Hs.
  destruct (cells h r) as [|m rest]; [contradiction|]. apply IH. exact Hs.
Qed.

(** When [print_loop] returns, it has printed every node of the initial
    queue, the children of every printed node, and no node that is its
    own child. *)
Lemma print_loop_returns_closed (g : graph) :
  forall fuel h r out hh res, print_loop g fuel h r out = PrintRet hh res ->
  exists p, res = out ++ p
    /\ (forall x, In x (cells h r) -> In x p)
    /\ (forall m c, In m p -> In c (g_children g m) -> In c p)
    /\ (forall m, In m p -> ~ In m (g_children g m)).
Proof.
  induction fuel as [|fuel IH]; intros h r out hh res Hrun; simpl in Hrun; [discriminate|].
  destruct (cells h r) as [|n rest] eqn:E.
  - injection Hrun as _ <-. exists []. rewrite app_nil_r.
    split; [reflexivity|]. split; [intros x []|]. split; [intros m c []|intros m []].
  - set (v := rest ++ set_minus (g_children g n) rest) in *.
    destruct (IH _ _ _ _ _ Hrun) as [q [Hres [Hq [Hcl Hns]]]].
    rewrite cells_upd_upd in Hq.
    assert (Hv : forall c, In c (g_children g n) -> In c q).
    { intros c Hc. apply Hq. unfold v. apply in_or_app.
      destruct (in_dec Nat.eq_dec c rest) as [Hr|Hr]; [now left|right].
      unfold set_minus. apply nodup_In, filter_In. split; [exact Hc|].
      apply negb_true_iff, not_true_iff_false. intros Hex.
      apply existsb_exists in Hex as [y [Hy Heq]]. apply Nat.eqb_eq in Heq. subst y.
      contradiction. }
    exists (n :: q). split; [rewrite Hres, <- app_assoc; reflexivity|]. split; [|split].
    + intros x [<-|Hx]; [now left|right]. apply Hq. unfold v. apply in_or_app. now left.
    + intros m c [<-|Hm] Hc; right; [now apply Hv | exact (Hcl m c Hm Hc)].
    + intros m [<-|Hm]; [|exact (Hns m Hm)].
      intros Hloop.
      pose proof (self_loop_stays g h r n Hloop) as Hs. rewrite E in Hs.
      exact (print_loop_self_loop_stuck g n Hloop fuel _ r _ (Hs (or_introl eq_refl)) hh res Hrun).
Qed.

Lemma reachable_printed (g : graph) (ns p : list nat) :
  (forall x, In x ns -> In x p) -> (forall m c, In m p -> In c (g_children g m) -> In c p) ->
  forall n, reachable g ns n -> In n p.
Proof.
  intros Hroots Hcl n Hr. induction Hr as [n Hn|m c _ IH Hc]; [now apply Hroots|].
  exact (Hcl m c IH Hc).
Qed.

(** X4: on a graph where a node reachable from the roots is its own child,
    neither [_get_node_counts] nor [_print_node_graph] returns, for any
    number of loop iterations: every reachable node is eventually popped,
    and a node that is its own child is put back into the queue each time
    it is popped. *)
Theorem self_loop_never_returns (g : graph) (fuel : nat) (h : pyheap) (root_nodes n : nat)
    (Hreach : reachable g (cells h root_nodes) n) (Hloop : In n (g_children g n)) :
  (forall h' c, _get_node_counts g fuel h root_nodes <> CountRet h' c)
  /\ (forall h' p, _print_node_graph g fuel h root_nodes <> PrintRet h' p).
Proof.
  assert (Hprint : forall h1 r, cells h1 r = cells h root_nodes ->
                     forall hh res, print_loop g fuel h1 r [] <> PrintRet hh res).
  { intros h1 r Hc hh res Hrun.
    destruct (print_loop_returns_closed g _ _ _ _ _ _ Hrun) as [p [_ [Hq [Hcl Hns]]]].
    rewrite Hc in Hq. apply (Hns n); [|exact Hloop].
    exact (reachable_printed g _ p Hq Hcl n Hreach). }
  split.
  - intros h' c Hrun. unfold _get_node_counts in Hrun.
    destruct (proj1 (loops_agree g fuel h root_nodes h root_nodes (0, 0, 0) [] eq_refl) _ _ Hrun)
      as [hh [p [Hp _]]].
    exact (Hprint h root_nodes eq_refl _ _ Hp).
  - intros h' p Hrun. unfold _print_node_graph, alloc in Hrun.
    refine (Hprint _ (next_ref h) _ _ _ Hrun). simpl. now rewrite Nat.eqb_refl.
Qed.

Lemma self_loop_never_returns_witness :
  reachable g_loop (cells h_loop 0) 1 /\ In 1 (g_children g_loop 1)
  /\ ((forall h' c, _get_node_counts g_loop 5 h_loop 0 <> CountRet h' c)
      /\ (forall h' p, _print_node_graph g_loop 5 h_loop 0 <> PrintRet h' p)).
Proof.
  assert (Hr : reachable g_loop (cells h_loop 0) 1).
  { apply (reach_child g_loop (cells h_loop 0) 0 1); [apply reach_root|]; simpl; auto. }
  split; [exact Hr|]. split; [simpl; auto|].
  apply (self_loop_never_returns g_loop 5 h_loop 0 1); [exact Hr | simpl; auto].
Defined.

End TraversalFacts.

Module SamplingFacts.

Import Fixtures.
Import PartitionSampling.
















Example sample_ex : sample 2 ctx_ex = SampleRet [(1, [4; 6]); (0, [5])].
Proof. reflexivity. Qed.

Example sample_ambiguous_ex :
  sample 2 {| instance_ids := [0]; output_ids := [[0; 1]] |} = SampleValueError [].
Proof. reflexivity. Qed.



End SamplingFacts.

Module LearnSpnFacts.

Import LearnSpn.

(** C8 (counterexample): with two data columns, a matching
    non-conditional context and the listed default arguments,
    [learn_spn] rejects [min_features_slice = 1]. *)
Lemma learn_spn_defaults_rejected :
  learn_spn_defaults nat unit (fun cols => cols)
    (fun _ _ _ _ _ _ _ => tt) 2 {| fc_query := [0; 1]; fc_evidence := [] |}
  = inr InvalidInput.
Proof. reflexivity. Qed.

(** C8 (amended): [min_features_slice] must exceed 1 just as
    [min_instances_slice] must, so a call with [min_features_slice = 1]
    (the value listed as its default) always raises a validation error;
    with [min_features_slice = 2] and the other listed defaults, a
    non-conditional context whose scope matches the data columns passes
    validation and the circuit is built. *)
Theorem learn_spn_default_thresholds (Data Module : Type) (n_cols : Data -> nat)
    (build : Data -> FeatureContext -> method -> method -> nat -> nat -> bool -> Module)
    (data : Data) (ctx : FeatureContext) :
  learn_spn_defaults Data Module n_cols build data ctx = inr InvalidInput
  /\ (length (fc_query ctx) = n_cols data -> fc_evidence ctx = [] ->
      learn_spn Data Module n_cols build data ctx (MethodName "kmeans") (MethodName "rdc")
        200 2 true
      = inl (build data ctx (MethodName "kmeans") (MethodName "rdc") 200 2 true)).
Proof.
  unfold learn_spn_defaults, learn_spn. simpl. split.
  - destruct (negb _); reflexivity.
  - intros Hq He. rewrite Hq, Nat.eqb_refl, He. reflexivity.
Qed.

Lemma learn_spn_default_thresholds_witness :
  learn_spn nat unit (fun cols => cols) (fun _ _ _ _ _ _ _ => tt) 2
    {| fc_query := [0; 1]; fc_evidence := [] |} (MethodName "kmeans") (MethodName "rdc")
    200 2 true = inl tt.
Proof.
  apply (proj2 (learn_spn_default_thresholds nat unit (fun cols => cols)
                  (fun _ _ _ _ _ _ _ => tt) 2 {| fc_query := [0; 1]; fc_evidence := [] |}));
    reflexivity.
Defined.

End LearnSpnFacts.

Module HypergeometricFacts.

Import Fixtures.
Import HypergeometricMarg.






End HypergeometricFacts.

Module HypergeometricLayerFacts.

Import Fixtures.
Import HypergeometricMarg HypergeometricLayer.

Lemma values_at_In ss vs s v : In v (values_at ss vs s) <-> In (s, v) (combine ss vs).
Proof.
  unfold values_at. rewrite in_map_iff. split.
  - intros [[s' v'] [Heq Hin]]. simpl in Heq. subst v'. apply filter_In in Hin as [Hin Hs].
    simpl in Hs. apply Nat.eqb_eq in Hs. now subst.
  - intros Hin. exists (s, v). split; [reflexivity|]. apply filter_In. split; [exact Hin|].
    apply Nat.eqb_refl.
Qed.

Lemma per_scope_identical_spec ss vs :
  per_scope_identical ss vs = true
  <-> (forall s v w, In (s, v) (combine ss vs) -> In (s, w) (combine ss vs) -> v = w).
Proof.
  unfold per_scope_identical. rewrite forallb_forall. split.
  - intros H s v w Hv Hw.
    assert (Hs : In s (nodup Nat.eq_dec ss)) by (apply nodup_In; now apply in_combine_l in Hv).
    specialize (H s Hs).
    apply values_at_In in Hv, Hw.
    destruct (values_at ss vs s) as [|v0 rest]; [destruct Hv|].
    rewrite forallb_forall in H.
    pose proof (proj1 (Z.eqb_eq _ _) (H v Hv)). pose proof (proj1 (Z.eqb_eq _ _) (H w Hw)).
    congruence.
  - intros H s _. destruct (values_at ss vs s) as [|v0 rest] eqn:E; [reflexivity|].
    apply forallb_forall. intros v Hv. apply Z.eqb_eq. apply (H s).
    + apply values_at_In. rewrite E. now left.
    + apply values_at_In. rewrite E. exact Hv.
Qed.

Lemma combine_map_map {A B C} (f : A -> B) (g : A -> C) (l : list A) :
  combine (map f l) (map g l) = map (fun x => (f x, g x)) l.
Proof. induction l; simpl; congruence. Qed.

Lemma per_scope_identical_nodes (nds : list hnode) (proj : hnode -> Z) :
  (forall a b, In a nds -> In b nds -> h_rv a = h_rv b -> proj a = proj b) ->
  per_scope_identical (map h_rv nds) (map proj nds) = true.
Proof.
  intros H. apply per_scope_identical_spec. intros s v w Hv Hw.
  rewrite combine_map_map in Hv, Hw.
  apply in_map_iff in Hv as [a [Ea Ha]], Hw as [b [Eb Hb]].
  injection Ea as <- <-. injection Eb as Es <-. now apply H.
Qed.

Lemma set_nodes_all_ok node_ok (nodes0 nds : list hnode) :
  map h_rv nodes0 = map h_rv nds ->
  (forall a, In a nds -> node_ok (h_N a) (h_M a) (h_n a) = true) ->
  set_nodes node_ok nodes0 (map h_N nds) (map h_M nds) (map h_n nds) = (nds, true).
Proof.
  revert nodes0. induction nds as [|[rv N M n] nds IH]; intros [|nd0 nodes0] Hrv Hok;
    simpl in Hrv; try discriminate; [reflexivity|].
  injection Hrv as Hrv0 Hrv. simpl.
  replace (node_ok N M n) with true
    by (symmetry; exact (Hok {| h_rv := rv; h_N := N; h_M := M; h_n := n |} (or_introl eq_refl))).
  rewrite IH; [|exact Hrv|intros a Ha; apply Hok; now right].
  now rewrite Hrv0.
Qed.

Lemma set_params_from_nodes node_ok (nodes0 nds : list hnode) (N M n : param) :
  map h_rv nodes0 = map h_rv nds ->
  to_vec (length nodes0) N = Some (map h_N nds) ->
  to_vec (length nodes0) M = Some (map h_M nds) ->
  to_vec (length nodes0) n = Some (map h_n nds) ->
  same_scope_same_params nds ->
  (forall a, In a nds -> node_ok (h_N a) (h_M a) (h_n a) = true) ->
  layer_set_params node_ok nodes0 N M n = (nds, true).
Proof.
  intros Hrv HN HM Hn Hc Hok. unfold layer_set_params. rewrite HN, HM, Hn, Hrv.
  rewrite !per_scope_identical_nodes; try (intros a b Ha Hb Hs; now apply Hc).
  now apply set_nodes_all_ok.
Qed.

Lemma init_from_nodes node_ok (nds : list hnode) (n_nodes : Z) :
  nds <> [] -> same_scope_same_params nds ->
  (forall a, In a nds -> node_ok (h_N a) (h_M a) (h_n a) = true) ->
  layer_init node_ok (ScopeList (map h_rv nds)) (PVec (map h_N nds)) (PVec (map h_M nds))
    (PVec (map h_n nds)) n_nodes = Some nds.
Proof.
  intros Hne Hc Hok. unfold layer_init.
  destruct nds as [|nd rest] eqn:E; [congruence|]. rewrite <- E in *. clear nd rest E.
  replace (match map h_rv nds with [] => None | _ :: _ => Some (map h_rv nds) end)
    with (Some (map h_rv nds)) by (destruct nds; [congruence|reflexivity]).
  rewrite (set_params_from_nodes node_ok _ nds); auto.
  - rewrite map_map. simpl. now rewrite map_id.
  - simpl. rewrite !length_map, Nat.eqb_refl. reflexivity.
  - simpl. rewrite !length_map, Nat.eqb_refl. reflexivity.
  - simpl. rewrite !length_map, Nat.eqb_refl. reflexivity.
Qed.

(** X9: a layer built from the scopes and the parameter lists of a non-empty
    list of valid nodes, where nodes over the same variable have the same
    parameters, is built without error, and [get_params] returns those
    parameter lists. *)
Theorem layer_init_round_trip (node_params_ok : Z -> Z -> Z -> bool) (nds : list hnode) (n_nodes : Z)
    (Hne : nds <> []) (Hsame : same_scope_same_params nds)
    (Hok : forall a, In a nds -> node_params_ok (h_N a) (h_M a) (h_n a) = true) :
  exists layer,
    layer_init node_params_ok (ScopeList (map h_rv nds)) (PVec (map h_N nds))
      (PVec (map h_M nds)) (PVec (map h_n nds)) n_nodes = Some layer
    /\ map h_rv layer = map h_rv nds
    /\ get_params layer = (map h_N nds, map h_M nds, map h_n nds).
Proof.
  exists nds. rewrite init_from_nodes by assumption. auto.
Qed.

(** X10: a layer built from one scope, [n_nodes >= 1] and valid [int]
    parameters has [n_nodes] nodes over that scope, and [get_params]
    returns each parameter repeated [n_nodes] times. *)
Theorem layer_init_broadcast (node_params_ok : Z -> Z -> Z -> bool) (rv : nat) (N M n n_nodes : Z)
    (Hn : (1 <= n_nodes)%Z) (Hok : node_params_ok N M n = true) :
  exists layer,
    layer_init node_params_ok (OneScope rv) (PInt N) (PInt M) (PInt n) n_nodes = Some layer
    /\ map h_rv layer = repeat rv (Z.to_nat n_nodes)
    /\ get_params layer = (repeat N (Z.to_nat n_nodes), repeat M (Z.to_nat n_nodes),
                           repeat n (Z.to_nat n_nodes)).
Proof.
  set (k := Z.to_nat n_nodes).
  set (nd := {| h_rv := rv; h_N := N; h_M := M; h_n := n |}).
  exists (repeat nd k). unfold layer_init.
  replace (n_nodes <? 1)%Z with false by (symmetry; apply Z.ltb_ge; lia).
  fold k.
  rewrite (set_params_from_nodes node_params_ok _ (repeat nd k)).
  - unfold get_params. rewrite !map_repeat. auto.
  - rewrite map_map, !map_repeat. reflexivity.
  - simpl. rewrite length_map, repeat_length, map_repeat. reflexivity.
  - simpl. rewrite length_map, repeat_length, map_repeat. reflexivity.
  - simpl. rewrite length_map, repeat_length, map_repeat. reflexivity.
  - intros a b Ha Hb _. apply repeat_spec in Ha, Hb. subst. auto.
  - intros a Ha. apply repeat_spec in Ha. now subst.
Qed.








Lemma set_nodes_fail_at node_ok (k : nat) :
  forall (nodes : list hnode) (Ns Ms ns : list Z),
  k < length nodes -> length Ns = length nodes -> length Ms = length nodes -> length ns = length nodes ->
  (forall i, i < k -> node_ok (nth i Ns 0%Z) (nth i Ms 0%Z) (nth i ns 0%Z) = true) ->
  node_ok (nth k Ns 0%Z) (nth k Ms 0%Z) (nth k ns 0%Z) = false ->
  let '(nodes', ok) := set_nodes node_ok nodes Ns Ms ns in
  ok = false /\ map h_rv nodes' = map h_rv nodes
  /\ firstn k (map h_N nodes') = firstn k Ns /\ firstn k (map h_M nodes') = firstn k Ms
  /\ firstn k (map h_n nodes') = firstn k ns /\ skipn (S k) nodes' = skipn (S k) nodes.
Proof.
  induction k as [|k IH]; intros [|nd nodes] [|N Ns] [|M Ms] [|n ns] Hk HN HM Hn Hbef Hat;
    simpl in *; try lia.
  - rewrite Hat. repeat split; reflexivity.
  - rewrite (Hbef 0 ltac:(lia)).
    specialize (IH nodes Ns Ms ns ltac:(lia) ltac:(lia) ltac:(lia) ltac:(lia)
                  (fun i Hi => Hbef (S i) ltac:(lia)) Hat).
    destruct (set_nodes node_ok nodes Ns Ms ns) as [rest ok].
    destruct IH as [Hok [Hrv [H1 [H2 [H3 H4]]]]].
    simpl. rewrite Hrv, H1, H2, H3, H4. repeat split; assumption.
Qed.

(** X12: [set_params] is not atomic: when the per-node check rejects the
    parameters of node [k] only, it raises, but the nodes before [k]
    already have their new parameters, while node scopes and the nodes
    after [k] are unchanged. *)
Theorem layer_set_params_not_atomic (node_params_ok : Z -> Z -> Z -> bool) (nodes : list hnode)
    (Ns Ms ns : list Z) (k : nat)
    (HN : length Ns = length nodes) (HM : length Ms = length nodes) (Hn : length ns = length nodes)
    (Hsame : per_scope_identical (map h_rv nodes) Ns && per_scope_identical (map h_rv nodes) Ms
             && per_scope_identical (map h_rv nodes) ns = true)
    (Hk : k < length nodes)
    (Hbefore : forall i, i < k -> node_params_ok (nth i Ns 0%Z) (nth i Ms 0%Z) (nth i ns 0%Z) = true)
    (Hat : node_params_ok (nth k Ns 0%Z) (nth k Ms 0%Z) (nth k ns 0%Z) = false) :
  let '(nodes', ok) := layer_set_params node_params_ok nodes (PVec Ns) (PVec Ms) (PVec ns) in
  ok = false /\ map h_rv nodes' = map h_rv nodes
  /\ firstn k (map h_N nodes') = firstn k Ns /\ firstn k (map h_M nodes') = firstn k Ms
  /\ firstn k (map h_n nodes') = firstn k ns /\ skipn (S k) nodes' = skipn (S k) nodes.
Proof.
  unfold layer_set_params. simpl to_vec. rewrite HN, HM, Hn, !Nat.eqb_refl, Hsame.
  now apply set_nodes_fail_at.
Qed.

Lemma surviving_incl (nodes : list hnode) (marg_rvs : list nat) a :
  In a (surviving nodes marg_rvs) -> In a nodes.
Proof.
  induction nodes as [|nd rest IH]; simpl; [auto|].
  unfold marginalize_node. destruct (existsb _ _); simpl.
  - intros H. right. now apply IH.
  - intros [<-|H]; [left; now destruct nd | right; now apply IH].
Qed.

(** X13: rebuilding a layer from the nodes that survive marginalization
    (line 366) always succeeds when the original nodes are valid and
    nodes over the same variable have the same parameters, and it gives
    back exactly the surviving nodes. *)
Theorem marginalize_rebuilds_survivors (node_params_ok : Z -> Z -> Z -> bool) (nodes : list hnode)
    (marg_rvs : list nat) (Hsame : same_scope_same_params nodes)
    (Hok : forall a, In a nodes -> node_params_ok (h_N a) (h_M a) (h_n a) = true)
    (Hs : surviving nodes marg_rvs <> []) :
  layer_init node_params_ok (ScopeList (map h_rv (surviving nodes marg_rvs)))
    (PVec (map h_N (surviving nodes marg_rvs))) (PVec (map h_M (surviving nodes marg_rvs)))
    (PVec (map h_n (surviving nodes marg_rvs))) 1 = Some (surviving nodes marg_rvs).
Proof.
  apply init_from_nodes; [exact Hs | |].
  - intros a b Ha Hb. apply Hsame; eapply surviving_incl; eassumption.
  - intros a Ha. apply Hok. eapply surviving_incl; eassumption.
Qed.

Lemma same_scope_same_params_ex : same_scope_same_params [nd0; nd1].
Proof.
  intros a b Ha Hb Hs.
  destruct Ha as [<-|[<-|[]]]; destruct Hb as [<-|[<-|[]]]; simpl in Hs; try discriminate; auto.
Qed.

Lemma layer_init_round_trip_witness :
  [nd0; nd1] <> [] /\ same_scope_same_params [nd0; nd1]
  /\ (forall a, In a [nd0; nd1] -> hyper_ok (h_N a) (h_M a) (h_n a) = true)
  /\ exists layer,
       layer_init hyper_ok (ScopeList (map h_rv [nd0; nd1])) (PVec (map h_N [nd0; nd1]))
         (PVec (map h_M [nd0; nd1])) (PVec (map h_n [nd0; nd1])) 1 = Some layer
       /\ map h_rv layer = map h_rv [nd0; nd1]
       /\ get_params layer = (map h_N [nd0; nd1], map h_M [nd0; nd1], map h_n [nd0; nd1]).
Proof.
  assert (Hok : forall a, In a [nd0; nd1] -> hyper_ok (h_N a) (h_M a) (h_n a) = true).
  { intros a [<-|[<-|[]]]; reflexivity. }
  split; [discriminate|]. split; [exact same_scope_same_params_ex|]. split; [exact Hok|].
  apply (layer_init_round_trip hyper_ok [nd0; nd1] 1);
    [discriminate | exact same_scope_same_params_ex | exact Hok].
Defined.

Lemma layer_init_broadcast_witness :
  (1 <= 2)%Z /\ hyper_ok 10 4 3 = true
  /\ exists layer,
       layer_init hyper_ok (OneScope 0) (PInt 10) (PInt 4) (PInt 3) 2 = Some layer
       /\ map h_rv layer = repeat 0 (Z.to_nat 2)
       /\ get_params layer = (repeat 10%Z (Z.to_nat 2), repeat 4%Z (Z.to_nat 2),
                              repeat 3%Z (Z.to_nat 2)).
Proof.
  split; [lia|]. split; [reflexivity|].
  apply (layer_init_broadcast hyper_ok 0 10 4 3 2); [lia | reflexivity].
Defined.

Lemma layer_set_params_not_atomic_witness :
  length [10; 3]%Z = length [nd0; nd1] /\ length [4; 5]%Z = length [nd0; nd1]
  /\ length [3; 1]%Z = length [nd0; nd1]
  /\ per_scope_identical (map h_rv [nd0; nd1]) [10; 3]%Z
     && per_scope_identical (map h_rv [nd0; nd1]) [4; 5]%Z
     && per_scope_identical (map h_rv [nd0; nd1]) [3; 1]%Z = true
  /\ 1 < length [nd0; nd1]
  /\ (forall i, i < 1 ->
        hyper_ok (nth i [10; 3]%Z 0%Z) (nth i [4; 5]%Z 0%Z) (nth i [3; 1]%Z 0%Z) = true)
  /\ hyper_ok (nth 1 [10; 3]%Z 0%Z) (nth 1 [4; 5]%Z 0%Z) (nth 1 [3; 1]%Z 0%Z) = false
  /\ let '(nodes', ok) :=
       layer_set_params hyper_ok [nd0; nd1] (PVec [10; 3]%Z) (PVec [4; 5]%Z) (PVec [3; 1]%Z) in
     ok = false /\ map h_rv nodes' = map h_rv [nd0; nd1]
     /\ firstn 1 (map h_N nodes') = firstn 1 [10; 3]%Z
     /\ firstn 1 (map h_M nodes') = firstn 1 [4; 5]%Z
     /\ firstn 1 (map h_n nodes') = firstn 1 [3; 1]%Z
     /\ skipn 2 nodes' = skipn 2 [nd0; nd1].
Proof.
  assert (Hb : forall i, i < 1 ->
     hyper_ok (nth i [10; 3]%Z 0%Z) (nth i [4; 5]%Z 0%Z) (nth i [3; 1]%Z 0%Z) = true).
  { intros [|i] Hi; [reflexivity | lia]. }
  split; [reflexivity|]. split; [reflexivity|]. split; [reflexivity|].
  split; [reflexivity|]. split; [simpl; lia|]. split; [exact Hb|]. split; [reflexivity|].
  apply (layer_set_params_not_atomic hyper_ok [nd0; nd1] [10; 3]%Z [4; 5]%Z [3; 1]%Z 1);
    [reflexivity | reflexivity | reflexivity | reflexivity | simpl; lia | exact Hb | reflexivity].
Defined.

Lemma marginalize_rebuilds_survivors_witness :
  same_scope_same_params [nd0; nd1]
  /\ (forall a, In a [nd0; nd1] -> hyper_ok (h_N a) (h_M a) (h_n a) = true)
  /\ surviving [nd0; nd1] [1] <> []
  /\ layer_init hyper_ok (ScopeList (map h_rv (surviving [nd0; nd1] [1])))
       (PVec (map h_N (surviving [nd0; nd1] [1]))) (PVec (map h_M (surviving [nd0; nd1] [1])))
       (PVec (map h_n (surviving [nd0; nd1] [1]))) 1 = Some (surviving [nd0; nd1] [1]).
Proof.
  assert (Hok : forall a, In a [nd0; nd1] -> hyper_ok (h_N a) (h_M a) (h_n a) = true).
  { intros a [<-|[<-|[]]]; reflexivity. }
  split; [exact same_scope_same_params_ex|]. split; [exact Hok|]. split; [simpl; discriminate|].
  apply (marginalize_rebuilds_survivors hyper_ok [nd0; nd1] [1]);
    [exact same_scope_same_params_ex | exact Hok | simpl; discriminate].
Defined.

End HypergeometricLayerFacts.

Module GeometricFacts.

Import Fixtures.
Import GeometricMLE.
Local Open Scope R_scope.

Lemma leaf_set_params_store (st : tstore) (p : R) :
  outcome_store (leaf_set_params st p) = st.
Proof. unfold leaf_set_params. now destruct (geometric_p_ok p). Qed.

Lemma leaf_set_params_ok (st : tstore) (p : R) :
  0 < p <= 1 -> leaf_set_params st p = MleOk st p.
Proof.
  intros [H0 H1]. unfold leaf_set_params, geometric_p_ok.
  destruct (Rlt_dec 0 p); [|lra]. destruct (Rle_dec p 1); [reflexivity | lra].
Qed.


Lemma mle_core_store (st : tstore) (w : nat) (xs : list R) (bias : bool) :
  outcome_store (mle_core st w xs bias)
  = write st w (map (fun x => x / (Rsum (tmem st w) / INR (length xs))) (tmem st w)).
Proof.
  unfold mle_core.
  destruct (bcast_mul _ xs); [|reflexivity]. simpl.
  destruct (Req_EM_T _ 0); simpl; [reflexivity|].
  destruct (Rle_dec _ _); simpl; [apply leaf_set_params_store|].
  destruct (Rle_dec _ _); apply leaf_set_params_store.
Qed.

Lemma mle_core_ok_store (st : tstore) (w : nat) (xs : list R) (bias : bool) st' p :
  mle_core st w xs bias = MleOk st' p ->
  st' = write st w (map (fun x => x / (Rsum (tmem st w) / INR (length xs))) (tmem st w)).
Proof. intros H. rewrite <- (mle_core_store st w xs bias), H. reflexivity. Qed.

Lemma tmem_write_same st r v : tmem (write st r v) r = v.
Proof. simpl. now rewrite Nat.eqb_refl. Qed.

Lemma tmem_write_other st r q v : q <> r -> tmem (write st r v) q = tmem st q.
Proof. intros H. simpl. now rewrite (proj2 (Nat.eqb_neq _ _) H). Qed.

Lemma existsb_negb_forallb {A : Type} (f : A -> bool) (l : list A) :
  forallb f l = true -> existsb (fun x => negb (f x)) l = false.
Proof.
  induction l as [|a l IH]; simpl; [reflexivity|].
  intros H. apply andb_true_iff in H as [Ha Hl]. now rewrite Ha, IH.
Qed.

Lemma length_unwrap data : length (unwrap data) = length data.
Proof. apply length_map. Qed.

(** C3 (code_bug): with [check_support=False] and the data [[0.],[0.]],
    the number of trials is zero, [p_est] becomes the Python float
    [1e-8], and [torch.isclose(p_est, ...)] raises a [TypeError] instead
    of storing the floor [1e-8]. *)
Theorem geometric_mle_zero_trials_type_error (in_support : R -> bool) (st : tstore) :
  exists st',
    maximum_likelihood_estimation in_support st [Some 0; Some 0] None false NanNone false
    = MleErr st' TypeError.
Proof.
  unfold maximum_likelihood_estimation, init_weights, talloc. simpl.
  rewrite Nat.eqb_refl. simpl. unfold mle_core. simpl. rewrite Nat.eqb_refl. simpl.
  match goal with |- context [Req_EM_T ?t 0] => destruct (Req_EM_T t 0) as [E|E] end.
  - eexists; reflexivity.
  - exfalso. apply E. ring.
Qed.

(** C4: with no strategy any missing value raises; any string other
    than ["ignore"] raises; an entirely missing column raises whatever
    the strategy; and once the weight and support checks pass on data
    that is not entirely missing, ["ignore"] drops the rows with a
    missing value together with their weights (into new storage) and a
    callable's result replaces the data before the estimation. *)
Theorem geometric_mle_nan_strategy (in_support : R -> bool) (st : tstore)
    (data : list (option R)) (weights : option nat) (bias check : bool) :
  (existsb is_nan data = true ->
     exists st', maximum_likelihood_estimation in_support st data weights bias NanNone check
                 = MleErr st' ValueError)
  /\ (forall s, s <> "ignore"%string ->
     exists st', maximum_likelihood_estimation in_support st data weights bias (NanStr s) check
                 = MleErr st' ValueError)
  /\ (forallb is_nan data = true -> forall nan,
     exists st', maximum_likelihood_estimation in_support st data weights bias nan check
                 = MleErr st' ValueError)
  /\ (let '(st1, w) := init_weights st weights (length data) in
      length (tmem st1 w) = length data ->
      (check = false \/ forallb (supported in_support) data = true) ->
      forallb is_nan data = false ->
      maximum_likelihood_estimation in_support st data weights bias (NanStr "ignore") check
      = (let '(st2, w2) := talloc st1 (keep_weights data (tmem st1 w)) in
         mle_core st2 w2 (keep_rows data) bias)
      /\ (forall f, maximum_likelihood_estimation in_support st data weights bias
                      (NanCallable f) check
                    = mle_core st1 w (f data) bias)).
Proof.
  unfold maximum_likelihood_estimation.
  destruct (init_weights st weights (length data)) as [st1 w].
  split; [|split; [|split]].
  - intros Hnan.
    destruct (negb _); [eauto|]. destruct (check && _); [eauto|].
    destruct (forallb is_nan data); [eauto|]. rewrite Hnan. simpl. eauto.
  - intros s Hs.
    destruct (negb _); [eauto|]. destruct (check && _); [eauto|].
    destruct (forallb is_nan data); [eauto|]. simpl.
    destruct (String.eqb_spec s "ignore"); [contradiction | eauto].
  - intros Hall nan.
    destruct (negb _); [eauto|]. destruct (check && _); [eauto|].
    rewrite Hall. eauto.
  - intros Hlen Hsupp Hnot.
    rewrite Hlen, Nat.eqb_refl. simpl.
    assert (Hc : check && existsb (fun x => negb (supported in_support x)) data = false).
    { destruct Hsupp as [-> | Hs]; [reflexivity|].
      rewrite (existsb_negb_forallb _ _ Hs). apply andb_false_r. }
    rewrite Hc, Hnot. simpl. split; reflexivity.
Qed.

Lemma geometric_mle_nan_strategy_witness :
  maximum_likelihood_estimation (fun _ => true) st_ex [Some 1; None] (Some 0%nat) true
    (NanStr "ignore") true
  = mle_core {| tmem := fun r' => if Nat.eqb r' 1%nat then [2] else tmem st_ex r'; tnext := 2%nat |}
      1%nat [1] true
  /\ (forall f, maximum_likelihood_estimation (fun _ => true) st_ex [Some 1; None] (Some 0%nat) true
                  (NanCallable f) true
                = mle_core st_ex 0%nat (f [Some 1; None]) true).
Proof.
  apply (proj2 (proj2 (proj2 (geometric_mle_nan_strategy (fun _ => true) st_ex [Some 1; None]
                                (Some 0%nat) true true)))).
  - reflexivity.
  - right. reflexivity.
  - reflexivity.
Defined.

(** C10 (counterexample): with [nan_strategy="ignore"] and no missing
    value, the caller's weights [[2,2]] (storage [0]) are copied by the
    boolean-mask indexing; after the call they still hold [[2,2]], not
    the normalized [[1,1]]. *)
Lemma geometric_mle_ignore_keeps_weights :
  match maximum_likelihood_estimation (fun _ => true) st_ex [Some 1; Some 1] (Some 0%nat)
          true (NanStr "ignore") true with
  | MleOk st' _ =>
      tmem st' 0%nat = [2; 2]
      /\ tmem st' 0%nat <> map (fun x => x / (Rsum [2; 2] / INR 2)) [2; 2]
  | MleErr _ _ => False
  end.
Proof.
  assert (Hmap : map (fun x => x / (Rsum [2; 2] / INR 2)) [2; 2] = [1; 1]).
  { simpl. f_equal; [field | f_equal; field]. }
  rewrite Hmap.
  unfold maximum_likelihood_estimation. simpl. unfold mle_core. simpl.
  match goal with |- context [Req_EM_T ?t 0] => destruct (Req_EM_T t 0) as [E|E] end.
  - exfalso. field_simplify in E. lra.
  - assert (Hone : 2 / ((2 + (2 + 0)) / (1 + 1)) = 1) by field.
    simpl. rewrite Hone in *.
    destruct (Rle_dec _ _); [|destruct (Rle_dec _ _)];
      (rewrite leaf_set_params_ok;
       [simpl; split; [reflexivity | intros H; injection H as H; lra] | try lra]).
Qed.

Lemma mle_none_weights (in_support : R -> bool) (st : tstore) (data : list (option R))
    (r : nat) (bias check : bool) st' p :
  maximum_likelihood_estimation in_support st data (Some r) bias NanNone check = MleOk st' p ->
  tmem st' r = map (fun x => x / (Rsum (tmem st r) / INR (length data))) (tmem st r).
Proof.
  unfold maximum_likelihood_estimation, init_weights.
  destruct (negb _); [discriminate|]. destruct (check && _); [discriminate|].
  destruct (forallb is_nan data); [discriminate|]. destruct (true && _); [discriminate|].
  intros H. apply mle_core_ok_store in H. subst st'.
  now rewrite tmem_write_same, length_unwrap.
Qed.

(** C10 (amended): with no strategy or a callable strategy, the call
    divides the caller's weights storage in place so that it sums to the
    number of rows; with ["ignore"] the weights are copied first and the
    caller's storage is left as it was; [em] divides the cached gradient's
    storage in place by its sum and then, through the view passed as
    weights, by [sum / rows] again. *)
Theorem geometric_mle_weights_in_place (in_support : R -> bool) (st : tstore)
    (data : list (option R)) (r : nat) (bias check : bool) (Hr : (r < tnext st)%nat) :
  (forall st' p,
     maximum_likelihood_estimation in_support st data (Some r) bias NanNone check = MleOk st' p ->
     tmem st' r = map (fun x => x / (Rsum (tmem st r) / INR (length data))) (tmem st r))
  /\ (forall f st' p,
     maximum_likelihood_estimation in_support st data (Some r) bias (NanCallable f) check
     = MleOk st' p ->
     tmem st' r = map (fun x => x / (Rsum (tmem st r) / INR (length (f data)))) (tmem st r))
  /\ (forall st' p,
     maximum_likelihood_estimation in_support st data (Some r) bias (NanStr "ignore") check
     = MleOk st' p ->
     tmem st' r = tmem st r)
  /\ (forall st' p,
     em in_support st data r check = MleOk st' p ->
     tmem st' r = let ys := map (fun x => x / Rsum (tmem st r)) (tmem st r) in
                  map (fun y => y / (Rsum ys / INR (length data))) ys).
Proof.
  split; [|split; [|split]].
  - apply mle_none_weights.
  - intros f st' p. unfold maximum_likelihood_estimation, init_weights.
    destruct (negb _); [discriminate|]. destruct (check && _); [discriminate|].
    destruct (forallb is_nan data); [discriminate|]. simpl.
    intros H. apply mle_core_ok_store in H. subst st'. now rewrite tmem_write_same.
  - intros st' p. unfold maximum_likelihood_estimation, init_weights.
    destruct (negb _); [discriminate|]. destruct (check && _); [discriminate|].
    destruct (forallb is_nan data); [discriminate|]. simpl.
    intros H. apply mle_core_ok_store in H. subst st'.
    rewrite tmem_write_other by lia. simpl.
    now rewrite (proj2 (Nat.eqb_neq r (tnext st))) by lia.
  - intros st' p H. unfold em in H. apply mle_none_weights in H.
    rewrite H, tmem_write_same. reflexivity.
Qed.

Lemma geometric_mle_weights_in_place_witness :
  (0 < tnext st_ex)%nat
  /\ match maximum_likelihood_estimation (fun _ => true) st_ex [Some 1; Some 1] (Some 0%nat)
             true (NanStr "ignore") true with
     | MleOk st' _ => tmem st' 0%nat = tmem st_ex 0%nat
     | MleErr _ _ => True
     end.
Proof.
  assert (Hr : (0 < tnext st_ex)%nat) by (simpl; lia).
  split; [exact Hr|].
  destruct (maximum_likelihood_estimation (fun _ => true) st_ex [Some 1; Some 1] (Some 0%nat)
              true (NanStr "ignore") true) as [st' p|st' e] eqn:E; [|exact I].
  exact (proj1 (proj2 (proj2 (geometric_mle_weights_in_place (fun _ => true) st_ex
                                [Some 1; Some 1] 0%nat true true Hr))) st' p E).
Defined.


Lemma Rsum_div (ws : list R) (c : R) : Rsum (map (fun x => x / c) ws) = Rsum ws / c.
Proof. induction ws as [|a ws IH]; simpl; [unfold Rdiv; ring|]. rewrite IH. unfold Rdiv. ring. Qed.

Lemma Rsum_nonneg (ws : list R) : Forall (fun x => 0 <= x) ws -> 0 <= Rsum ws.
Proof. induction 1; simpl; lra. Qed.

Lemma Rsum_weighted_ge (ws xs : list R) :
  length ws = length xs -> Forall (fun x => 0 <= x) ws -> Forall (fun x => 1 <= x) xs ->
  Rsum ws <= Rsum (map (fun '(w, x) => w * x) (combine ws xs)).
Proof.
  revert xs; induction ws as [|w ws IH]; intros [|x xs] Hl Hw Hx; simpl in *; try lra; try lia.
  inversion Hw; inversion Hx; subst.
  specialize (IH xs ltac:(lia) ltac:(assumption) ltac:(assumption)).
  assert (0 <= w * (x - 1)) by (apply Rmult_le_pos; lra). nra.
Qed.

Lemma mle_core_in_unit (st : tstore) (w : nat) (xs : list R)
    (Hl : length (tmem st w) = length xs) (Hne : xs <> [])
    (Hw : Forall (fun x => 0 <= x) (tmem st w)) (Hpos : 0 < Rsum (tmem st w))
    (Hx : Forall (fun x => 1 <= x) xs) :
  exists st' p, mle_core st w xs false = MleOk st' p /\ 0 < p < 1.
Proof.
  unfold mle_core.
  set (ws := tmem st w) in *.
  set (n := INR (length xs)).
  assert (Hn : 0 < n) by (unfold n; destruct xs; [congruence|]; apply lt_0_INR; simpl; lia).
  set (scale := Rsum ws / n).
  assert (Hsc : 0 < scale) by (unfold scale; apply Rdiv_lt_0_compat; assumption).
  set (ws' := map (fun x => x / scale) ws).
  assert (Hsum : Rsum ws' = n) by (unfold ws'; rewrite Rsum_div; unfold scale; field; repeat split; lra).
  assert (Hw' : Forall (fun x => 0 <= x) ws').
  { unfold ws'. apply Forall_map. eapply Forall_impl; [|exact Hw].
    intros a Ha. unfold Rdiv. apply Rmult_le_pos; [exact Ha|]. left; now apply Rinv_0_lt_compat. }
  assert (Hl' : length ws' = length xs) by (unfold ws'; now rewrite length_map).
  unfold bcast_mul. rewrite Hl', Nat.eqb_refl.
  set (nt := Rsum (map (fun '(w0, x) => w0 * x) (combine ws' xs))).
  assert (Hnt : n <= nt) by (rewrite <- Hsum; now apply Rsum_weighted_ge).
  destruct (Req_EM_T nt 0) as [E|_]; [lra|].
  replace (Rsum ws' - (if false then 1 else 0)) with n by (rewrite Hsum; simpl; ring).
  unfold torch_isclose.
  destruct (Rle_dec (Rabs (n / nt - 0)) (1e-8 + 1e-5 * Rabs 0)).
  { rewrite leaf_set_params_ok by lra. do 2 eexists. split; [reflexivity|]. lra. }
  destruct (Rle_dec (Rabs (n / nt - 1)) (1e-8 + 1e-5 * Rabs 1)).
  { rewrite leaf_set_params_ok by lra. do 2 eexists. split; [reflexivity|]. lra. }
  assert (Hp : 0 < n / nt) by (apply Rdiv_lt_0_compat; lra).
  assert (Hle : n / nt <= 1) by (apply Rmult_le_reg_r with nt; [lra|]; unfold Rdiv; rewrite Rmult_assoc, Rinv_l by lra; lra).
  rewrite leaf_set_params_ok by lra.
  do 2 eexists. split; [reflexivity|].
  split; [exact Hp|]. destruct Hle as [Hlt|Heq]; [exact Hlt|].
  exfalso. apply n1. rewrite Heq, Rminus_diag, Rabs_R0, Rabs_R1. lra.
Qed.

(** X14: with non-missing data values all at least 1, [nan_strategy=None],
    no bias correction, the support check off or passed, and either no
    weights or non-negative weights of the right length with a positive
    sum, the geometric MLE returns an estimate [p] with [0 < p < 1]. *)
Theorem geometric_mle_valid_probability (in_support : R -> bool) (st : tstore)
    (scope_data : list (option R)) (weights : option nat) (check_support : bool)
    (Hne : scope_data <> [])
    (Hdata : Forall (fun x => exists v, x = Some v /\ 1 <= v) scope_data)
    (Hsupp : check_support = false \/ forallb (supported in_support) scope_data = true)
    (Hw : match weights with
          | None => True
          | Some w => length (tmem st w) = length scope_data
                      /\ Forall (fun x => 0 <= x) (tmem st w) /\ 0 < Rsum (tmem st w)
          end) :
  exists st' p,
    maximum_likelihood_estimation in_support st scope_data weights false NanNone check_support
      = MleOk st' p /\ 0 < p < 1.
Proof.
  unfold maximum_likelihood_estimation.
  assert (Hw1 : let '(st1, w) := init_weights st weights (length scope_data) in
                length (tmem st1 w) = length scope_data
                /\ Forall (fun x => 0 <= x) (tmem st1 w) /\ 0 < Rsum (tmem st1 w)).
  { destruct weights as [w|]; simpl; [exact Hw|].
    rewrite Nat.eqb_refl, repeat_length. split; [reflexivity|]. split.
    - apply Forall_forall. intros x Hx. apply repeat_spec in Hx. lra.
    - destruct scope_data as [|d rest]; [congruence|]. simpl.
      clear. induction (length rest); simpl; lra. }
  destruct (init_weights st weights (length scope_data)) as [st1 w].
  destruct Hw1 as [Hl [Hnn Hpos]].
  rewrite Hl, Nat.eqb_refl. simpl negb. cbv iota.
  replace (check_support && existsb (fun x => negb (supported in_support x)) scope_data)
    with false.
  2:{ destruct Hsupp as [->|Hs]; [reflexivity|]. rewrite andb_comm.
      symmetry. apply andb_false_intro1. apply not_true_iff_false. intros Hex.
      apply existsb_exists in Hex as [x [Hx Hn]]. apply forallb_forall with (x := x) in Hs;
      [|exact Hx]. rewrite Hs in Hn. discriminate. }
  assert (Hnonan : existsb is_nan scope_data = false).
  { apply not_true_iff_false. intros Hex. apply existsb_exists in Hex as [x [Hx Hn]].
    rewrite Forall_forall in Hdata. destruct (Hdata x Hx) as [v [-> _]]. discriminate. }
  replace (forallb is_nan scope_data) with false.
  2:{ destruct scope_data as [|x rest]; [congruence|]. simpl.
      inversion Hdata as [|? ? [v [-> _]] _]; subst. reflexivity. }
  rewrite Hnonan. simpl andb. cbv iota.
  apply mle_core_in_unit.
  - unfold unwrap. now rewrite length_map.
  - unfold unwrap. destruct scope_data; [congruence|]. discriminate.
  - exact Hnn.
  - exact Hpos.
  - unfold unwrap. apply Forall_map. eapply Forall_impl; [|exact Hdata].
    intros x [v [-> Hv]]. exact Hv.
Qed.

Lemma leaf_set_params_same (st1 st2 : tstore) (p : R) :
  match leaf_set_params st1 p, leaf_set_params st2 p with
  | MleOk _ p, MleOk _ q => p = q
  | MleErr _ e, MleErr _ e' => e = e'
  | _, _ => False
  end.
Proof. unfold leaf_set_params. now destruct (geometric_p_ok p). Qed.

Lemma mle_core_same_normalized (st1 st2 : tstore) (w1 w2 : nat) (xs : list R) (b : bool) :
  map (fun x => x / (Rsum (tmem st1 w1) / INR (length xs))) (tmem st1 w1)
  = map (fun x => x / (Rsum (tmem st2 w2) / INR (length xs))) (tmem st2 w2) ->
  match mle_core st1 w1 xs b, mle_core st2 w2 xs b with
  | MleOk _ p, MleOk _ q => p = q
  | MleErr _ e, MleErr _ e' => e = e'
  | _, _ => False
  end.
Proof.
  intros Heq. unfold mle_core. rewrite Heq.
  destruct (bcast_mul _ xs); [|reflexivity].
  destruct (Req_EM_T _ 0); simpl; [reflexivity|].
  destruct (Rle_dec _ _); [apply leaf_set_params_same|].
  destruct (Rle_dec _ _); apply leaf_set_params_same.
Qed.

(** X15: when the expectations do not sum to 0, [em] gives the same estimate
    (or the same error) as [maximum_likelihood_estimation] called
    directly with the unnormalized expectations as weights: the
    normalization in [em] is undone by the one in the MLE. *)
Theorem em_matches_mle_on_expectations (in_support : R -> bool) (st : tstore)
    (scope_data : list (option R)) (grad : nat) (check_support : bool)
    (Hs : Rsum (tmem st grad) <> 0) :
  match em in_support st scope_data grad check_support,
        maximum_likelihood_estimation in_support st scope_data (Some grad) false NanNone check_support with
  | MleOk _ p, MleOk _ q => p = q
  | MleErr _ e, MleErr _ e' => e = e'
  | _, _ => False
  end.
Proof.
  unfold em, maximum_likelihood_estimation. simpl init_weights. cbv iota.
  set (es := tmem st grad) in *.
  assert (Hm : tmem (write st grad (map (fun x => x / Rsum es) es)) grad = map (fun x => x / Rsum es) es)
    by (simpl; now rewrite Nat.eqb_refl).
  rewrite Hm, length_map.
  destruct (negb (Nat.eqb (length es) (length scope_data))); [reflexivity|].
  destruct (check_support && _); [reflexivity|].
  destruct (forallb is_nan scope_data); [reflexivity|].
  destruct (existsb is_nan scope_data); simpl andb; cbv iota; [reflexivity|].
  apply mle_core_same_normalized. fold es. rewrite Hm, Rsum_div, map_map.
  apply map_ext. intros x.
  destruct (Req_dec (INR (length (unwrap scope_data))) 0) as [Hz|Hz].
  - rewrite Hz. unfold Rdiv. rewrite !Rinv_0, !Rmult_0_r, !Rinv_0. ring.
  - field. repeat split; assumption.
Qed.


Lemma geometric_mle_valid_probability_witness :
  [Some 2; Some 3] <> []
  /\ Forall (fun x => exists v, x = Some v /\ 1 <= v) [Some 2; Some 3]
  /\ (true = false \/ forallb (supported (fun _ => true)) [Some 2; Some 3] = true)
  /\ (length (tmem st_ex 0) = length [Some 2; Some 3]
      /\ Forall (fun x => 0 <= x) (tmem st_ex 0) /\ 0 < Rsum (tmem st_ex 0))
  /\ exists st' p,
       maximum_likelihood_estimation (fun _ => true) st_ex [Some 2; Some 3] (Some 0%nat) false
         NanNone true = MleOk st' p /\ 0 < p < 1.
Proof.
  assert (Hd : Forall (fun x => exists v, x = Some v /\ 1 <= v) [Some 2; Some 3]).
  { constructor; [exists 2; split; [reflexivity | lra]|].
    constructor; [exists 3; split; [reflexivity | lra]|]. constructor. }
  assert (Hw : length (tmem st_ex 0) = length [Some 2; Some 3]
               /\ Forall (fun x => 0 <= x) (tmem st_ex 0) /\ 0 < Rsum (tmem st_ex 0)).
  { split; [reflexivity|]. simpl. split; [repeat constructor; lra | unfold Rsum; simpl; lra]. }
  split; [discriminate|]. split; [exact Hd|]. split; [right; reflexivity|]. split; [exact Hw|].
  apply (geometric_mle_valid_probability (fun _ => true) st_ex [Some 2; Some 3] (Some 0%nat) true);
    [discriminate | exact Hd | right; reflexivity | exact Hw].
Defined.

Lemma em_matches_mle_on_expectations_witness :
  Rsum (tmem st_ex 0) <> 0
  /\ match em (fun _ => true) st_ex [Some 2; Some 3] 0 false,
           maximum_likelihood_estimation (fun _ => true) st_ex [Some 2; Some 3] (Some 0%nat)
             false NanNone false with
     | MleOk _ p, MleOk _ q => p = q
     | MleErr _ e, MleErr _ e' => e = e'
     | _, _ => False
     end.
Proof.
  assert (Hs : Rsum (tmem st_ex 0) <> 0) by (unfold Rsum; simpl; lra).
  split; [exact Hs|].
  apply (em_matches_mle_on_expectations (fun _ => true) st_ex [Some 2; Some 3] 0 false Hs).
Defined.


End GeometricFacts.

Module HistogramFacts.

Import Histograms.
Local Open Scope R_scope.

(** C6 (counterexample): for breaks [[0,1]], density [[1]] and the value
    [5], the loop leaves the probability [0], and the floor then raises
    it to [EPSILON]: for no positive [EPSILON] is the probability whose
    logarithm is returned still [0]. *)
Lemma histogram_out_of_range_is_floored :
  probs_of [0; 1] [1] [5] = Some [0]
  /\ ~ (exists EPSILON, 0 < EPSILON /\ map (floor EPSILON) [0] = [0]).
Proof.
  split.
  - unfold probs_of, prob_of, py_index. simpl.
    destruct (Rlt_dec 5 0); [lra|]. destruct (Rlt_dec 1 5); [reflexivity | lra].
  - intros [eps [Hpos Hmap]]. simpl in Hmap. injection Hmap as Hf.
    unfold floor in Hf. destruct (Rlt_dec 0 eps); lra.
Qed.

Lemma nth_error_last_elem (l : list R) (d : R) :
  l <> [] -> nth_error l (length l - 1) = Some (last l d).
Proof.
  induction l as [|a l IH]; intros Hne; [congruence|].
  destruct l as [|b l]; [reflexivity|].
  replace (length (a :: b :: l) - 1)%nat with (S (length (b :: l) - 1)) by (simpl; lia).
  change (nth_error (b :: l) (length (b :: l) - 1) = Some (last (b :: l) d)).
  apply IH. discriminate.
Qed.

Lemma py_index_nat (l : list R) (k : nat) : py_index l (Z.of_nat k) = nth_error l k.
Proof.
  unfold py_index. destruct (Z.ltb_spec (Z.of_nat k) 0); [lia|]. now rewrite Nat2Z.id.
Qed.

(** The linear scan stops at the upper break of the bin holding [x]. *)
Lemma scan_bin (x : R) (breaks : list R) :
  forall (densities : list R) (j : nat),
    length densities = (length breaks - 1)%nat -> breaks <> [] ->
    hd 0 breaks <= x -> x < last breaks 0 ->
    exists k, scan breaks x j = (j + S k)%nat
              /\ nth_error densities k = Some (containing_bin_density breaks densities x).
Proof.
  induction breaks as [|b0 bs IH]; intros densities j Hlen Hne Hlo Hhi; [congruence|].
  simpl in Hlo. simpl. destruct (Rlt_dec x b0) as [Hlt|_]; [lra|].
  destruct bs as [|b1 rest]; [simpl in Hhi; lra|].
  destruct densities as [|d0 ds]; [simpl in Hlen; lia|].
  simpl in Hlen. injection Hlen as Hlen.
  destruct (Rlt_dec x b1) as [Hlt1|Hge1].
  - exists 0%nat. simpl. destruct (Rlt_dec x b1); [|contradiction]. split; [lia | reflexivity].
  - destruct (IH ds (S j)) as [k [Hscan Hnth]].
    + simpl. lia.
    + discriminate.
    + simpl. lra.
    + exact Hhi.
    + exists (S k). split.
      * rewrite Hscan. lia.
      * simpl. exact Hnth.
Qed.

(** C6 (amended): on data avoiding the last break, [histogram_likelihood]
    gives a value below [breaks[0]] or above [breaks[-1]] the raw
    probability 0 and a value in between the density of its bin found by
    the linear scan; every raw probability below [EPSILON], those zeros
    included, is raised to [EPSILON] before the natural logarithm is
    taken, so out-of-range values get [ln EPSILON] when [EPSILON > 0]. *)
Theorem histogram_likelihood_floors_all (EPSILON : R) (breaks densities data : list R)
    (Hb : breaks <> []) (Hd : length densities = (length breaks - 1)%nat)
    (Hx : forall x, In x data -> x <> last breaks 0) :
  histogram_likelihood EPSILON breaks densities data
  = Some (map (fun x =>
                 ln (floor EPSILON
                       (if Rlt_dec x (hd 0 breaks) then 0
                        else if Rlt_dec (last breaks 0) x then 0
                        else containing_bin_density breaks densities x)))
              data)
  /\ (0 < EPSILON -> floor EPSILON 0 = EPSILON).
Proof.
  split.
  2:{ intros H. unfold floor. destruct (Rlt_dec 0 EPSILON); [reflexivity | lra]. }
  assert (Hprob : forall x, x <> last breaks 0 ->
    prob_of breaks densities x
    = Some (if Rlt_dec x (hd 0 breaks) then 0
            else if Rlt_dec (last breaks 0) x then 0
            else containing_bin_density breaks densities x)).
  { intros x Hxl. unfold prob_of.
    replace (py_index breaks 0) with (Some (hd 0 breaks))
      by (destruct breaks; [congruence | reflexivity]).
    destruct (Rlt_dec x (hd 0 breaks)) as [Hlo|Hlo]; [reflexivity|].
    replace (py_index breaks (-1)) with (Some (last breaks 0)).
    2:{ unfold py_index. simpl.
        destruct breaks as [|b bs]; [congruence|].
        replace (1 <=? length (b :: bs))%nat with true by (symmetry; apply Nat.leb_le; simpl; lia).
        symmetry. now apply nth_error_last_elem. }
    destruct (Rlt_dec (last breaks 0) x) as [Hhi|Hhi]; [reflexivity|].
    destruct (scan_bin x breaks densities 0 Hd Hb) as [k [Hs Hn]]; [lra | lra |].
    rewrite Hs. simpl (0 + S k)%nat.
    replace (Z.of_nat (S k) - 1)%Z with (Z.of_nat k) by lia.
    now rewrite py_index_nat. }
  unfold histogram_likelihood.
  assert (Hps : probs_of breaks densities data
    = Some (map (fun x => if Rlt_dec x (hd 0 breaks) then 0
                          else if Rlt_dec (last breaks 0) x then 0
                          else containing_bin_density breaks densities x) data)).
  { induction data as [|x rest IHd]; [reflexivity|]. simpl.
    rewrite Hprob by (apply Hx; now left).
    rewrite IHd by (intros y Hy; apply Hx; now right). reflexivity. }
  rewrite Hps, map_map. reflexivity.
Qed.

Lemma histogram_likelihood_floors_all_witness :
  histogram_likelihood 1e-7 [0; 1; 2] [0.25; 0.75] [0.5; 3]
  = Some (map (fun x =>
                 ln (floor 1e-7
                       (if Rlt_dec x (hd 0 [0; 1; 2]) then 0
                        else if Rlt_dec (last [0; 1; 2] 0) x then 0
                        else containing_bin_density [0; 1; 2] [0.25; 0.75] x)))
              [0.5; 3]).
Proof.
  assert (Hx : forall x, In x [0.5; 3] -> x <> last [0; 1; 2] 0)
    by (intros x [<-|[<-|[]]]; simpl; lra).
  exact (proj1 (histogram_likelihood_floors_all 1e-7 [0; 1; 2] [0.25; 0.75] [0.5; 3]
                  ltac:(discriminate) eq_refl Hx)).
Defined.


(** X5: for densities that are numbers (a NaN density, which the floor
    [probs < EPSILON] does not catch, is outside this model of the
    densities as reals) and a positive [EPSILON], when
    [histogram_likelihood] returns, it returns one value per data row and
    each value is at least [log(EPSILON)]. *)
Theorem histogram_likelihood_at_least_log_epsilon (EPSILON : R) (breaks densities data : list R)
    (He : 0 < EPSILON) :
  match histogram_likelihood EPSILON breaks densities data with
  | Some out => length out = length data /\ Forall (fun v => ln EPSILON <= v) out
  | None => True
  end.
Proof.
  unfold histogram_likelihood.
  destruct (probs_of breaks densities data) as [probs|] eqn:E; [|exact I].
  split.
  - rewrite length_map. revert probs E. induction data as [|x rest IH]; intros probs E.
    + simpl in E. now injection E as <-.
    + simpl in E. destruct (prob_of breaks densities x); [|discriminate].
      destruct (probs_of breaks densities rest) as [ps|] eqn:E2; [|discriminate].
      injection E as <-. simpl. f_equal. now apply IH.
  - apply Forall_map, Forall_forall. intros p _.
    unfold floor. destruct (Rlt_dec p EPSILON) as [Hlt|Hge]; [lra|].
    destruct (Req_dec p EPSILON) as [->|Hne]; [lra|].
    left. apply ln_increasing; lra.
Qed.

Lemma scan_past_all (breaks : list R) (x : R) (j : nat) :
  Forall (fun b => b <= x) breaks -> scan breaks x j = (j + length breaks)%nat.
Proof.
  revert j. induction breaks as [|b bs IH]; intros j H; simpl; [lia|].
  inversion H as [|? ? Hb Hbs]; subst.
  destruct (Rlt_dec x b); [lra|]. rewrite IH by exact Hbs. lia.
Qed.

Lemma probs_of_none (breaks densities data : list R) (x : R) :
  In x data -> prob_of breaks densities x = None -> probs_of breaks densities data = None.
Proof.
  induction data as [|y rest IH]; intros Hin Hx; [destruct Hin|].
  simpl. destruct Hin as [->|Hin].
  - now rewrite Hx.
  - rewrite (IH Hin Hx). now destruct (prob_of breaks densities y).
Qed.

(** X6: for ascending breaks and one density per bin, a value equal to the
    last break makes [histogram_likelihood] raise: the bin loop counts
    every break and reads [densities[len(breaks) - 1]], which is out of
    range. *)
Theorem histogram_likelihood_last_break_index_error (EPSILON : R) (breaks densities data : list R)
    (Hb : breaks <> []) (Hsorted : Forall (fun b => b <= last breaks 0) breaks)
    (Hd : length densities = (length breaks - 1)%nat) (Hin : In (last breaks 0) data) :
  histogram_likelihood EPSILON breaks densities data = None.
Proof.
  unfold histogram_likelihood.
  rewrite (probs_of_none _ _ _ (last breaks 0) Hin); [reflexivity|].
  unfold prob_of.
  replace (py_index breaks 0) with (Some (hd 0 breaks))
    by (destruct breaks; [congruence | reflexivity]).
  destruct (Rlt_dec (last breaks 0) (hd 0 breaks)) as [Hlt|_].
  { exfalso. destruct breaks as [|b bs]; [congruence|].
    inversion Hsorted as [|? ? Hb0 _]; subst. simpl hd in Hlt. lra. }
  replace (py_index breaks (-1)) with (Some (last breaks 0)).
  2:{ unfold py_index. simpl.
      destruct breaks as [|b bs]; [congruence|].
      replace (1 <=? length (b :: bs))%nat with true by (symmetry; apply Nat.leb_le; simpl; lia).
      symmetry. now apply nth_error_last_elem. }
  destruct (Rlt_dec (last breaks 0) (last breaks 0)) as [Hlt|_]; [lra|].
  rewrite scan_past_all by exact Hsorted.
  replace (Z.of_nat (0 + length breaks) - 1)%Z with (Z.of_nat (length breaks - 1)).
  2:{ destruct breaks; [congruence|]. simpl length. lia. }
  rewrite py_index_nat. apply nth_error_None. lia.
Qed.

Lemma histogram_likelihood_at_least_log_epsilon_witness :
  0 < 1e-4
  /\ histogram_likelihood 1e-4 [0; 1] [1] [-1; 1 / 2; 3]
     = Some (map (fun p => ln (floor 1e-4 p)) [0; 1; 0])
  /\ match histogram_likelihood 1e-4 [0; 1] [1] [-1; 1 / 2; 3] with
     | Some out => length out = length [-1; 1 / 2; 3] /\ Forall (fun v => ln 1e-4 <= v) out
     | None => True
     end.
Proof.
  split; [lra|]. split.
  - unfold histogram_likelihood, probs_of, prob_of, py_index. simpl.
    repeat match goal with |- context [Rlt_dec ?a ?b] =>
      destruct (Rlt_dec a b); try (exfalso; lra) end.
    reflexivity.
  - apply (histogram_likelihood_at_least_log_epsilon 1e-4 [0; 1] [1] [-1; 1 / 2; 3]). lra.
Defined.

Lemma histogram_likelihood_last_break_index_error_witness :
  [0; 1] <> [] /\ Forall (fun b => b <= last [0; 1] 0) [0; 1]
  /\ length [1] = (length [0; 1] - 1)%nat /\ In (last [0; 1] 0) [1]
  /\ histogram_likelihood 1e-4 [0; 1] [1] [1] = None.
Proof.
  assert (Hs : Forall (fun b => b <= last [0; 1] 0) [0; 1]).
  { apply Forall_forall. intros b Hb. simpl in Hb |- *. destruct Hb as [<-|[<-|[]]]; lra. }
  split; [discriminate|]. split; [exact Hs|]. split; [reflexivity|]. split; [simpl; auto|].
  apply (histogram_likelihood_last_break_index_error 1e-4 [0; 1] [1] [1]);
    [discriminate | exact Hs | reflexivity | simpl; auto].
Defined.

End HistogramFacts.

Module HistogramLeafFacts.

Import HistogramLeaf.
Local Open Scope R_scope.

Lemma unit_edges_S d0 s m : unit_edges d0 s (S m) = (d0 + INR s) :: unit_edges d0 (S s) m.
Proof. reflexivity. Qed.

Lemma widths_unit d0 s m : widths (unit_edges d0 s (S m)) = repeat 1 m.
Proof.
  revert s. induction m as [|m IH]; intros s; [reflexivity|].
  rewrite unit_edges_S.
  replace (widths ((d0 + INR s) :: unit_edges d0 (S s) (S m)))
    with ((d0 + INR (S s) - (d0 + INR s)) :: widths (unit_edges d0 (S s) (S m)))
    by reflexivity.
  rewrite IH, S_INR. simpl. f_equal. ring.
Qed.

Lemma nondecreasing_unit d0 s m : nondecreasing (unit_edges d0 s m) = true.
Proof.
  revert s. induction m as [|m IH]; intros s; [reflexivity|].
  destruct m as [|m]; [reflexivity|].
  rewrite unit_edges_S.
  replace (nondecreasing ((d0 + INR s) :: unit_edges d0 (S s) (S m)))
    with (Rleb (d0 + INR s) (d0 + INR (S s)) && nondecreasing (unit_edges d0 (S s) (S m)))
    by reflexivity.
  rewrite IH, andb_true_r. unfold Rleb. destruct (Rle_dec _ _) as [_|H]; [reflexivity|].
  exfalso. apply H. rewrite S_INR. lra.
Qed.

Lemma length_hist_counts edges data : length (hist_counts edges data) = (length edges - 1)%nat.
Proof.
  induction edges as [|e0 rest IH]; [reflexivity|].
  destruct rest as [|e1 rest']; [reflexivity|].
  simpl hist_counts. simpl length. simpl length in IH. rewrite IH. lia.
Qed.

Lemma length_widths edges : length (widths edges) = (length edges - 1)%nat.
Proof.
  induction edges as [|e0 rest IH]; [reflexivity|].
  destruct rest as [|e1 rest']; [reflexivity|].
  simpl widths. simpl length. simpl length in IH. rewrite IH. lia.
Qed.

Lemma hist_counts_nonneg edges data : Forall (fun c => 0 <= c) (hist_counts edges data).
Proof.
  induction edges as [|e0 rest IH]; [constructor|].
  destruct rest as [|e1 rest']; [constructor|].
  constructor; [apply pos_INR | exact IH].
Qed.

Lemma rsum_nonneg xs : Forall (fun c => 0 <= c) xs -> 0 <= rsum xs.
Proof. induction 1; simpl; lra. Qed.

Lemma in_filter_length {A} (f : A -> bool) l x : In x l -> f x = true -> (1 <= length (filter f l))%nat.
Proof.
  induction l as [|y l IH]; intros Hin Hf; [destruct Hin|].
  simpl. destruct Hin as [->|Hin]; [rewrite Hf; simpl; lia|].
  destruct (f y); simpl; [lia | now apply IH].
Qed.

Lemma hist_counts_cons2 e0 e1 rest data :
  hist_counts (e0 :: e1 :: rest) data
  = INR (length (filter (in_bin e0 e1 (match rest with [] => true | _ => false end)) data))
    :: hist_counts (e1 :: rest) data.
Proof. reflexivity. Qed.

(** Some bin of [edges] holds any value between the first and last edge. *)
Lemma hist_counts_pos edges data x :
  (2 <= length edges)%nat -> In x data -> hd 0 edges <= x <= last edges 0 ->
  0 < rsum (hist_counts edges data).
Proof.
  induction edges as [|e0 rest IH]; intros Hl Hin Hx; [simpl in Hl; lia|].
  destruct rest as [|e1 rest']; [simpl in Hl; lia|].
  rewrite hist_counts_cons2. simpl rsum.
  pose proof (rsum_nonneg _ (hist_counts_nonneg (e1 :: rest') data)) as Hnn.
  destruct rest' as [|e2 rest''].
  - change (0 < INR (length (filter (in_bin e0 e1 true) data)) + rsum (hist_counts [e1] data)).
    assert (H1 : (1 <= length (filter (in_bin e0 e1 true) data))%nat).
    { apply (in_filter_length _ _ x Hin). unfold in_bin, Rleb. simpl in Hx.
      destruct (Rle_dec e0 x); [|lra]. destruct (Rle_dec x e1); [reflexivity|lra]. }
    apply le_INR in H1. simpl in H1. lra.
  - change (0 < INR (length (filter (in_bin e0 e1 false) data))
                + rsum (hist_counts (e1 :: e2 :: rest'') data)).
    destruct (Rlt_dec x e1) as [Hlt|Hge].
    + assert (H1 : (1 <= length (filter (in_bin e0 e1 false) data))%nat).
      { apply (in_filter_length _ _ x Hin). unfold in_bin, Rleb, Rltb. simpl in Hx.
        destruct (Rle_dec e0 x); [|lra]. destruct (Rlt_dec x e1); [reflexivity|lra]. }
      apply le_INR in H1. simpl in H1. lra.
    + assert (0 < rsum (hist_counts (e1 :: e2 :: rest'') data)).
      { apply IH; [simpl; lia | exact Hin |]. simpl. simpl in Hx. lra. }
      pose proof (pos_INR (length (filter (in_bin e0 e1 false) data))). lra.
Qed.

Lemma unit_edges_snoc d0 k : (1 <= k)%nat ->
  unit_edges d0 0 k ++ [last (unit_edges d0 0 k) 0 + 1] = unit_edges d0 0 (S k).
Proof.
  intros Hk. destruct k as [|k]; [lia|].
  unfold unit_edges. rewrite (seq_S (S k)), (seq_S k), !map_app. simpl map.
  rewrite last_last, <- app_assoc. simpl app.
  change (match k with 0%nat => 1 | S _ => INR k + 1 end) with (INR (S k)). rewrite S_INR, <- app_assoc. simpl app. do 3 f_equal. ring.
Qed.

Lemma rsum_smooth (n a D : R) (ds : list R) : D <> 0 ->
  rsum (map (fun d => (d * n + a) / D) ds) = (rsum ds * n + INR (length ds) * a) / D.
Proof.
  intros HD. induction ds as [|d ds IH]; simpl; [field; exact HD|].
  rewrite IH. destruct (length ds); [simpl; field; exact HD|]. rewrite S_INR. field. exact HD.
Qed.

Lemma rsum_dens (T : R) (cs : list R) : T <> 0 ->
  rsum (map (fun '(c, w) => c / w / T) (combine cs (repeat 1 (length cs)))) = rsum cs / T.
Proof.
  intros HT. induction cs as [|c cs IH]; simpl; [field; exact HT|].
  rewrite IH. field. exact HT.
Qed.

(** X7: for a discrete or categorical variable whose domain is
    [d0, d0 + 1, ..., d0 + k - 1], data with a value in
    [[d0, d0 + k]] and [alpha > 0], [create_histogram_leaf] returns the
    breaks [d0, ..., d0 + k] and [k] smoothed densities that are all
    positive and sum to 1. *)
Theorem create_histogram_leaf_discrete_unit_bins (getHistogramVals : list R -> list R * list R * list R)
    (stype : string) (d0 alpha : R) (k : nat) (data : list R)
    (Hst : stype = "discrete"%string \/ stype = "categorical"%string) (Hk : (1 <= k)%nat)
    (Ha : 0 < alpha) (Hx : exists x, In x data /\ d0 <= x <= d0 + INR k) :
  match create_histogram_leaf getHistogramVals data
          {| statistical_type := [stype]; domain := [map (fun i => d0 + INR i) (seq 0 k)] |}
          [0%nat] alpha with
  | HistOk breaks densities =>
      breaks = map (fun i => d0 + INR i) (seq 0 (S k))
      /\ length densities = k /\ Forall (fun d => 0 < d) densities /\ rsum densities = 1
  | _ => False
  end.
Proof.
  destruct Hx as [x [Hin Hxr]].
  fold (unit_edges d0 0 k). fold (unit_edges d0 0 (S k)).
  assert (Hsel : (String.eqb stype "continuous" = false)
                 /\ (String.eqb stype "discrete" || String.eqb stype "categorical")%bool = true)
    by (destruct Hst as [-> | ->]; split; reflexivity).
  destruct Hsel as [Hc Hd].
  unfold create_histogram_leaf. simpl (negb _). cbv iota beta.
  simpl nth_error. cbv iota beta. rewrite Hc, Hd.
  destruct (unit_edges d0 0 k) as [|e0 es] eqn:Edom.
  { destruct k; [lia|]. discriminate. }
  rewrite <- Edom, (unit_edges_snoc d0 k Hk), nondecreasing_unit.
  set (edges := unit_edges d0 0 (S k)).
  set (cs := hist_counts edges data).
  assert (Hlen_cs : length cs = k).
  { unfold cs, edges. rewrite length_hist_counts. unfold unit_edges.
    rewrite length_map, length_seq. lia. }
  assert (HT : 0 < rsum cs).
  { apply (hist_counts_pos _ _ x); [unfold edges, unit_edges; rewrite length_map, length_seq; lia
      | exact Hin |].
    unfold edges, unit_edges. rewrite (seq_S k), map_app. cbn [map]. rewrite last_last. destruct k; [lia|]. simpl. simpl in Hxr. lra. }
  unfold np_histogram_density. fold cs.
  replace (widths edges) with (repeat 1 (length cs)) by (rewrite Hlen_cs; symmetry; apply widths_unit).
  replace (existsb (fun w => Reqb w 0) (repeat 1 (length cs))) with false.
  2:{ symmetry. apply not_true_iff_false. intros Hex. apply existsb_exists in Hex as [w [Hw Heq]].
      apply repeat_spec in Hw. subst w. unfold Reqb in Heq. destruct (Req_EM_T 1 0); [lra|discriminate]. }
  replace (Reqb (rsum cs) 0) with false
    by (unfold Reqb; destruct (Req_EM_T (rsum cs) 0); [lra|reflexivity]).
  simpl orb. cbv iota beta.
  replace (Reqb alpha 0) with false
    by (unfold Reqb; destruct (Req_EM_T alpha 0); [lra|reflexivity]).
  set (dens := map (fun '(c, w) => c / w / rsum cs) (combine cs (repeat 1 (length cs)))).
  assert (Hlen_e : (length edges - 1)%nat = k)
    by (unfold edges, unit_edges; rewrite length_map, length_seq; lia).
  rewrite Hlen_e.
  assert (Hlen_d : length dens = k)
    by (unfold dens; rewrite length_map, length_combine, repeat_length; lia).
  set (n := INR (length data)).
  assert (Hn : 0 <= n) by apply pos_INR.
  assert (Hkr : 1 <= INR k) by (apply (le_INR 1); exact Hk).
  assert (HD : n + INR k * alpha <> 0) by nra.
  rewrite length_map, Hlen_d, Nat.eqb_refl.
  split; [reflexivity|]. split; [now rewrite length_map|]. split.
  - apply Forall_map, Forall_forall. intros d Hd'.
    unfold dens in Hd'. apply in_map_iff in Hd' as [[c w] [<- Hcw]].
    pose proof (in_combine_l _ _ _ _ Hcw) as Hc'. pose proof (in_combine_r _ _ _ _ Hcw) as Hw'.
    apply repeat_spec in Hw'. subst w.
    pose proof (proj1 (Forall_forall _ _) (hist_counts_nonneg edges data) c Hc') as Hc0.
    apply Rdiv_lt_0_compat; [|nra].
    assert (0 <= c / 1 / rsum cs) by (apply Rmult_le_pos; [lra|]; left; apply Rinv_0_lt_compat; lra).
    nra.
  - rewrite rsum_smooth by exact HD. unfold dens. rewrite rsum_dens by lra.
    rewrite length_map, length_combine, repeat_length, Nat.min_id, Hlen_cs.
    replace (rsum cs / rsum cs) with 1 by (field; lra). field. exact HD.
Qed.

Lemma rsum_repeat (c : R) (n : nat) : rsum (repeat c n) = INR n * c.
Proof. induction n as [|n IH]; [simpl; ring|]. rewrite S_INR. simpl repeat. unfold rsum in *. simpl. rewrite IH. ring. Qed.

Lemma np_var_repeat (c : R) (n : nat) : (1 <= n)%nat -> np_var (repeat c n) = 0.
Proof.
  intros Hn. unfold np_var.
  assert (Hm : np_mean (repeat c n) = c).
  { unfold np_mean. rewrite rsum_repeat, repeat_length. field.
    apply not_0_INR. lia. }
  rewrite Hm, map_repeat. replace ((c - c) ^ 2) with 0 by ring.
  unfold np_mean. rewrite rsum_repeat. unfold Rdiv. ring.
Qed.

(** X8: for a continuous variable with domain [[minx, maxx]], [minx < maxx],
    and [n >= 1] identical data values (anywhere), [create_histogram_leaf]
    with [alpha > 0] returns the single bin [[minx, maxx]] with density
    [(n / (maxx - minx) + alpha) / (n + alpha)]. *)
Theorem create_histogram_leaf_constant_data (getHistogramVals : list R -> list R * list R * list R)
    (c minx maxx alpha : R) (n : nat) (Hn : (1 <= n)%nat) (Hlt : minx < maxx) (Ha : 0 < alpha) :
  create_histogram_leaf getHistogramVals (repeat c n)
    {| statistical_type := ["continuous"%string]; domain := [[minx; maxx]] |} [0%nat] alpha
  = HistOk [minx; maxx] [(INR n / (maxx - minx) + alpha) / (INR n + alpha)].
Proof.
  unfold create_histogram_leaf. simpl.
  rewrite Rmax_right, Rmin_left by lra.
  replace (match repeat c n with [] => false | _ :: _ => Rltb 1e-10 (np_var (repeat c n)) end)
    with false.
  2:{ destruct n as [|n']; [lia|]. cbv iota. rewrite (np_var_repeat c (S n')) by lia.
      unfold Rltb. destruct (Rlt_dec 1e-10 0); [lra|reflexivity]. }
  unfold Reqb. destruct (Req_EM_T (maxx - minx) 0) as [E|_]; [lra|].
  destruct (Req_EM_T alpha 0) as [E|_]; [lra|].
  simpl. rewrite repeat_length. do 2 f_equal. field. split.
  - lra.
  - assert (0 < INR n) by (apply lt_0_INR; lia). lra.
Qed.

Lemma insert_uniq_In x l y : In y (insert_uniq x l) <-> x = y \/ In y l.
Proof.
  induction l as [|z l IH]; simpl; [tauto|].
  unfold Rltb, Reqb.
  destruct (Rlt_dec x z); [simpl; tauto|].
  destruct (Req_EM_T x z) as [->|]; [simpl; tauto|].
  simpl. rewrite IH. tauto.
Qed.

Lemma np_unique_In xs y : In y (np_unique xs) <-> In y xs.
Proof.
  induction xs as [|x xs IH]; simpl; [tauto|]. rewrite insert_uniq_In, IH. tauto.
Qed.

Lemma insert_uniq_hd x l y : y < x -> HdRel Rlt y l -> HdRel Rlt y (insert_uniq x l).
Proof.
  intros Hyx Hl. destruct l as [|z l]; simpl; [now constructor|].
  unfold Rltb, Reqb.
  destruct (Rlt_dec x z); [now constructor|].
  destruct (Req_EM_T x z); [exact Hl|]. inversion Hl; subst. now constructor.
Qed.

Lemma insert_uniq_sorted x l : Sorted Rlt l -> Sorted Rlt (insert_uniq x l).
Proof.
  induction l as [|z l IH]; intros Hs; simpl; [repeat constructor|].
  unfold Rltb, Reqb.
  destruct (Rlt_dec x z); [constructor; [exact Hs | now constructor]|].
  destruct (Req_EM_T x z); [exact Hs|].
  inversion Hs as [|? ? Hs' Hhd]; subst.
  constructor; [now apply IH|]. apply insert_uniq_hd; [lra | exact Hhd].
Qed.

Lemma np_unique_sorted xs : Sorted Rlt (np_unique xs).
Proof. induction xs as [|x xs IH]; simpl; [constructor|]. now apply insert_uniq_sorted. Qed.

Lemma sorted_snoc_last (u : list R) : u <> [] -> Sorted Rlt u -> Sorted Rlt (u ++ [last u 0 + 1]).
Proof.
  induction u as [|a u IH]; intros Hne Hs; [congruence|].
  destruct u as [|b u].
  - simpl. repeat constructor. lra.
  - inversion Hs as [|? ? Hs' Hhd]; subst. inversion Hhd; subst.
    change ((a :: b :: u) ++ [last (a :: b :: u) 0 + 1])
      with (a :: ((b :: u) ++ [last (b :: u) 0 + 1])).
    constructor; [apply IH; [discriminate | exact Hs']|].
    simpl. now constructor.
Qed.

Lemma sorted_nondecreasing (edges : list R) : Sorted Rlt edges -> nondecreasing edges = true.
Proof.
  induction edges as [|e0 rest IH]; intros Hs; [reflexivity|].
  destruct rest as [|e1 rest']; [reflexivity|].
  inversion Hs as [|? ? Hs' Hhd]; subst. inversion Hhd; subst.
  change (Rleb e0 e1 && nondecreasing (e1 :: rest') = true).
  rewrite IH by exact Hs'. unfold Rleb. destruct (Rle_dec e0 e1); [reflexivity|lra].
Qed.

Lemma sorted_widths_pos (edges : list R) : Sorted Rlt edges -> Forall (fun w => 0 < w) (widths edges).
Proof.
  induction edges as [|e0 rest IH]; intros Hs; [constructor|].
  destruct rest as [|e1 rest']; [constructor|].
  inversion Hs as [|? ? Hs' Hhd]; subst. inversion Hhd; subst.
  change (Forall (fun w => 0 < w) ((e1 - e0) :: widths (e1 :: rest'))).
  constructor; [lra | now apply IH].
Qed.

Lemma sorted_counts_pos (edges data : list R) :
  Sorted Rlt edges -> (forall e, In e (removelast edges) -> In e data) ->
  Forall (fun c => 1 <= c) (hist_counts edges data).
Proof.
  induction edges as [|e0 rest IH]; intros Hs Hin; [constructor|].
  destruct rest as [|e1 rest']; [constructor|].
  inversion Hs as [|? ? Hs' Hhd]; subst. inversion Hhd; subst.
  rewrite hist_counts_cons2. constructor.
  - assert (H1 : (1 <= length (filter (in_bin e0 e1 match rest' with [] => true | _ => false end) data))%nat).
    { apply (in_filter_length _ _ e0); [apply Hin; simpl; auto|].
      unfold in_bin, Rleb, Rltb. destruct (Rle_dec e0 e0); [|lra].
      destruct rest'; [destruct (Rle_dec e0 e1); [reflexivity|lra]|].
      destruct (Rlt_dec e0 e1); [reflexivity|lra]. }
    apply le_INR in H1. simpl in H1. exact H1.
  - apply IH; [exact Hs'|]. intros e He. apply Hin.
    change (removelast (e0 :: e1 :: rest')) with (e0 :: removelast (e1 :: rest')). now right.
Qed.

Lemma match_nonempty {A B : Type} (l : list A) (a b : B) :
  l <> [] -> match l with [] => a | _ :: _ => b end = b.
Proof. destruct l; [congruence | reflexivity]. Qed.

Lemma rsum_ge_1 (cs : list R) : cs <> [] -> Forall (fun c => 1 <= c) cs -> 1 <= rsum cs.
Proof.
  intros Hne Hc. destruct cs as [|c cs]; [congruence|].
  inversion Hc as [|? ? H1 Hcs]; subst.
  pose proof (rsum_nonneg cs (Forall_impl _ (fun x (Hx : 1 <= x) => Rle_trans 0 1 x Rle_0_1 Hx) Hcs)).
  unfold rsum in *. simpl. lra.
Qed.

Lemma Forall_combine_pos (cs ws : list R) :
  Forall (fun c => 1 <= c) cs -> Forall (fun w => 0 < w) ws -> forall T, 0 < T ->
  Forall (fun d => 0 < d) (map (fun '(c, w) => c / w / T) (combine cs ws)).
Proof.
  intros Hc. revert ws. induction Hc as [|c cs Hc1 Hcs IH]; intros ws Hw T HT; [constructor|].
  destruct ws as [|w ws]; [constructor|]. inversion Hw; subst. simpl. constructor.
  - apply Rdiv_lt_0_compat; [|exact HT]. apply Rdiv_lt_0_compat; lra.
  - now apply IH.
Qed.

Lemma add_domains_one_discrete (col : list R) (st : string) (dom0 : list (list R)) :
  (st = "discrete"%string \/ st = "categorical"%string) ->
  add_domains [col] {| statistical_type := [st]; domain := dom0 |}
  = Some {| statistical_type := [st]; domain := [np_unique col] |}.
Proof. intros [-> | ->]; reflexivity. Qed.

(** X17: for a column of a discrete or categorical variable with at least
    one value, [add_domains] followed by [create_histogram_leaf] with
    [alpha >= 0] does not raise: the breaks are the distinct values of
    the column in ascending order followed by the largest value plus 1,
    and there is one density per distinct value, each of them positive. *)
Theorem add_domains_discrete_histogram_leaf
    (getHistogramVals : list R -> list R * list R * list R) (st : string) (col : list R)
    (dom0 : list (list R)) (alpha : R)
    (Hst : st = "discrete"%string \/ st = "categorical"%string) (Hne : col <> []) (Ha : 0 <= alpha) :
  match add_domains [col] {| statistical_type := [st]; domain := dom0 |} with
  | Some ctx =>
      match create_histogram_leaf getHistogramVals col ctx [0%nat] alpha with
      | HistOk breaks densities =>
          breaks = np_unique col ++ [last (np_unique col) 0 + 1]
          /\ length densities = length (np_unique col)
          /\ Forall (fun d => 0 < d) densities
      | _ => False
      end
  | None => False
  end.
Proof.
  rewrite add_domains_one_discrete by exact Hst.
  set (u := np_unique col).
  assert (Hu : u <> []).
  { destruct col as [|x xs]; [congruence|]. intros E.
    assert (Hx : In x u) by (apply np_unique_In; now left). rewrite E in Hx. destruct Hx. }
  set (breaks := u ++ [last u 0 + 1]).
  assert (Hs : Sorted Rlt breaks) by (apply sorted_snoc_last; [exact Hu | apply np_unique_sorted]).
  assert (Hlb : length breaks = S (length u)) by (unfold breaks; rewrite length_app; simpl; lia).
  set (cs := hist_counts breaks col).
  set (ws := widths breaks).
  assert (Hc : Forall (fun c => 1 <= c) cs).
  { apply sorted_counts_pos; [exact Hs|]. unfold breaks. rewrite removelast_last.
    intros e He. now apply np_unique_In. }
  assert (Hw : Forall (fun w => 0 < w) ws) by (now apply sorted_widths_pos).
  assert (Hlc : length cs = length u) by (unfold cs; rewrite length_hist_counts; lia).
  assert (Hlw : length ws = length u) by (unfold ws; rewrite length_widths; lia).
  assert (HS : 1 <= rsum cs).
  { apply rsum_ge_1; [|exact Hc]. intros E. rewrite E in Hlc. simpl in Hlc.
    destruct u; [congruence | discriminate]. }
  set (dens := map (fun '(c, w) => c / w / rsum cs) (combine cs ws)).
  assert (Hdens : np_histogram_density col breaks = Some dens).
  { unfold np_histogram_density. fold cs ws.
    replace (existsb (fun w => Reqb w 0) ws) with false.
    2:{ symmetry. apply not_true_iff_false. intros Hex. apply existsb_exists in Hex as [w [Hin Hw0]].
        rewrite Forall_forall in Hw. specialize (Hw w Hin). unfold Reqb in Hw0.
        destruct (Req_EM_T w 0); [lra | discriminate]. }
    unfold Reqb at 1. destruct (Req_EM_T (rsum cs) 0); [lra | reflexivity]. }
  assert (Hpos : Forall (fun d => 0 < d) dens) by (apply Forall_combine_pos; [exact Hc | exact Hw | lra]).
  assert (Hld : length dens = length u)
    by (unfold dens; rewrite length_map, length_combine, Hlc, Hlw; lia).
  unfold create_histogram_leaf. cbn [length Nat.eqb negb hd nth_error statistical_type domain].
  replace (String.eqb st "continuous") with false by (destruct Hst as [-> | ->]; reflexivity).
  replace (String.eqb st "discrete" || String.eqb st "categorical")%bool with true
    by (destruct Hst as [-> | ->]; reflexivity).
  rewrite (match_nonempty u) by exact Hu.
  fold breaks.
  rewrite (sorted_nondecreasing breaks Hs), Hdens.
  assert (Hn : 1 <= INR (length col)).
  { destruct col; [congruence|]. apply (le_INR 1). simpl. lia. }
  unfold Reqb. destruct (Req_EM_T alpha 0) as [_|Ha0].
  - rewrite Hld, Hlb. simpl Nat.sub. rewrite Nat.sub_0_r, Nat.eqb_refl.
    split; [reflexivity|]. split; [exact Hld | exact Hpos].
  - rewrite length_map, Hld, Hlb. simpl Nat.sub. rewrite Nat.sub_0_r, Nat.eqb_refl.
    split; [reflexivity|]. split; [now rewrite length_map|].
    apply Forall_map. eapply Forall_impl; [|exact Hpos]. intros d Hd.
    assert (Hk : 1 <= INR (length u)).
    { destruct u; [congruence|]. apply (le_INR 1). simpl. lia. }
    apply Rdiv_lt_0_compat.
    + assert (0 < d * INR (length col)) by (apply Rmult_lt_0_compat; lra). lra.
    + assert (0 <= INR (length u) * alpha) by (apply Rmult_le_pos; lra). lra.
Qed.

Lemma add_domains_discrete_histogram_leaf_witness :
  ("categorical"%string = "discrete"%string \/ "categorical"%string = "categorical"%string)
  /\ [3; 1; 3] <> [] /\ 0 <= 0
  /\ match add_domains [[3; 1; 3]] {| statistical_type := ["categorical"%string]; domain := [] |} with
     | Some ctx =>
         match create_histogram_leaf (fun d => (d, d, d)) [3; 1; 3] ctx [0%nat] 0 with
         | HistOk breaks densities =>
             breaks = np_unique [3; 1; 3] ++ [last (np_unique [3; 1; 3]) 0 + 1]
             /\ length densities = length (np_unique [3; 1; 3])
             /\ Forall (fun d => 0 < d) densities
         | _ => False
         end
     | None => False
     end.
Proof.
  split; [right; reflexivity|]. split; [discriminate|]. split; [lra|].
  apply (add_domains_discrete_histogram_leaf (fun d => (d, d, d)) "categorical" [3; 1; 3] [] 0);
    [right; reflexivity | discriminate | lra].
Defined.

Lemma create_histogram_leaf_discrete_unit_bins_witness :
  ("discrete"%string = "discrete"%string \/ "discrete"%string = "categorical"%string)
  /\ (1 <= 2)%nat /\ 0 < 1 /\ (exists x, In x [1; 7] /\ 0 <= x <= 0 + INR 2)
  /\ match create_histogram_leaf (fun d => (d, d, d)) [1; 7]
             {| statistical_type := ["discrete"%string];
                domain := [map (fun i => 0 + INR i) (seq 0 2)] |}
             [0%nat] 1 with
     | HistOk breaks densities =>
         breaks = map (fun i => 0 + INR i) (seq 0 3)
         /\ length densities = 2%nat /\ Forall (fun d => 0 < d) densities /\ rsum densities = 1
     | _ => False
     end.
Proof.
  assert (Hx : exists x, In x [1; 7] /\ 0 <= x <= 0 + INR 2).
  { exists 1. split; [simpl; auto|]. simpl. lra. }
  split; [left; reflexivity|]. split; [lia|]. split; [lra|]. split; [exact Hx|].
  apply (create_histogram_leaf_discrete_unit_bins (fun d => (d, d, d)) "discrete" 0 1 2 [1; 7]);
    [left; reflexivity | lia | lra | exact Hx].
Defined.

Lemma create_histogram_leaf_constant_data_witness :
  (1 <= 3)%nat /\ 0 < 2 /\ 0 < 1
  /\ create_histogram_leaf (fun d => (d, d, d)) (repeat 5 3)
       {| statistical_type := ["continuous"%string]; domain := [[0; 2]] |} [0%nat] 1
     = HistOk [0; 2] [(INR 3 / (2 - 0) + 1) / (INR 3 + 1)].
Proof.
  split; [lia|]. split; [lra|]. split; [lra|].
  apply (create_histogram_leaf_constant_data (fun d => (d, d, d)) 5 0 2 1 3); [lia | lra | lra].
Defined.

End HistogramLeafFacts.
